(** * SEDP packet validator (tools/validate_sedp.py)

    A shallow embedding of the capture-to-validation pipeline of
    [tools/validate_sedp.py]: pcap reading, RTPS submessage walking,
    entity-id classification, CDR parameter-list decoding and SEDP
    validation, with the properties the specification states about them.

    Python integers are [Z]; [bytes] objects are lists of [byte]; a Python
    [str] is held as the Rocq [string] of its UTF-8 encoding; dictionaries
    with a fixed key set are records, optional keys are [option] fields;
    exceptions are an explicit outcome of a small error monad. *)

From Stdlib Require Import ZArith List Bool Lia Sorted.
From Stdlib.Strings Require Import String Ascii Byte.
From Stdlib Require Import DecimalString.
Import ListNotations.

Local Open Scope string_scope.
Local Open Scope list_scope.
Local Open Scope Z_scope.

(* ------------------------------------------------------------------ *)
(** ** Python primitives used by the tool *)

Module Py.

Definition bytes := list byte.

(** Exceptions the tool's code can raise. *)
Inductive exn : Type :=
| IndexError
| StructError
| ValueError (msg : string).

(** Outcome of a computation: a value, a raised exception, or the loop
    budget of the model exhausted (shown below never to happen). *)
Inductive result (A : Type) : Type :=
| Ok (a : A)
| Raise (e : exn)
| OutOfFuel.
Arguments Ok {A} a.
Arguments Raise {A} e.
Arguments OutOfFuel {A}.

Definition bind {A B} (c : result A) (k : A -> result B) : result B :=
  match c with
  | Ok a => k a
  | Raise e => Raise e
  | OutOfFuel => OutOfFuel
  end.

(** [len(b)] *)
Definition len (b : bytes) : Z := Z.of_nat (List.length b).

(** The value of one byte, 0..255. *)
Definition byte_val (b : byte) : Z := Z.of_N (Byte.to_N b).

(** Clamping of a slice bound, as [PySlice_AdjustIndices] does for step 1:
    a negative bound counts from the end, and both are clamped to
    [0..len]. *)
Definition clamp (n i : Z) : Z :=
  if i <? 0 then Z.max 0 (i + n) else Z.min i n.

(** [b[lo:hi]]: never raises, silently truncates. *)
Definition slice (b : bytes) (lo hi : Z) : bytes :=
  let l := clamp (len b) lo in
  let h := clamp (len b) hi in
  firstn (Z.to_nat (h - l)) (skipn (Z.to_nat l) b).

(** [b[lo:]] *)
Definition slice_from (b : bytes) (lo : Z) : bytes :=
  skipn (Z.to_nat (clamp (len b) lo)) b.

(** [b[:hi]] *)
Definition slice_to (b : bytes) (hi : Z) : bytes :=
  firstn (Z.to_nat (clamp (len b) hi)) b.

(** [b[i]]: raises IndexError outside [-len..len-1]; a negative index
    counts from the end. *)
Definition index (b : bytes) (i : Z) : result Z :=
  let j := if i <? 0 then i + len b else i in
  if j <? 0 then Raise IndexError
  else match nth_error b (Z.to_nat j) with
       | Some x => Ok (byte_val x)
       | None => Raise IndexError
       end.

(** Little-endian and big-endian value of a byte string. *)
Fixpoint le_value (b : bytes) : Z :=
  match b with
  | [] => 0
  | x :: r => byte_val x + 256 * le_value r
  end.

Definition be_value (b : bytes) : Z :=
  fold_left (fun acc x => acc * 256 + byte_val x) b 0.

(** [struct.unpack(fmt, b)[0]] for a single unsigned field of [n]
    bytes: raises struct.error unless [b] has exactly [n] bytes. *)
Definition unpack_le (n : nat) (b : bytes) : result Z :=
  if Nat.eqb (List.length b) n then Ok (le_value b) else Raise StructError.

Definition unpack_be (n : nat) (b : bytes) : result Z :=
  if Nat.eqb (List.length b) n then Ok (be_value b) else Raise StructError.

(** [str(n)] / [f"{n}"] for a non-negative integer. *)
Definition str_of_int (n : Z) : string :=
  NilZero.string_of_uint (N.to_uint (Z.to_N n)).

Definition hex_digit (upper : bool) (d : Z) : ascii :=
  if d <? 10 then ascii_of_N (Z.to_N (48 + d))
  else ascii_of_N (Z.to_N ((if upper then 55 else 87) + d)).

(** Hexadecimal digits of [n], most significant first, at least [width]
    of them ([fuel] bounds the number of digits produced). *)
Fixpoint hex_digits (fuel : nat) (upper : bool) (width : nat) (n : Z)
         (acc : string) : string :=
  match fuel with
  | O => acc
  | S fuel' =>
      if (n =? 0) && Nat.eqb width 0 then acc
      else hex_digits fuel' upper (Nat.pred width) (n / 16)
                      (String (hex_digit upper (n mod 16)) acc)
  end.

Definition format_hex (upper : bool) (width : nat) (n : Z) : string :=
  hex_digits (width + Z.to_nat (Z.log2_up (n + 1))) upper width n "".

(** [f"{n:04X}"] and [f"{n:08x}"] for a non-negative integer. *)
Definition format_04X (n : Z) : string := format_hex true 4 n.
Definition format_08x (n : Z) : string := format_hex false 8 n.

(** [b.hex()] *)
Fixpoint hex (b : bytes) : string :=
  match b with
  | [] => ""
  | x :: r =>
      String (hex_digit false (byte_val x / 16))
             (String (hex_digit false (byte_val x mod 16)) (hex r))
  end.

(** [needle in hay] on strings. *)
Fixpoint contains (needle hay : string) : bool :=
  if String.prefix needle hay then true
  else match hay with
       | EmptyString => false
       | String _ hay' => contains needle hay'
       end.

(** *** UTF-8 decoding with [errors='ignore']

    A byte in [0x80..0xBF]. *)
Definition is_cont (v : Z) : bool := (0x80 <=? v) && (v <=? 0xBF).

Definition in_range (lo hi v : Z) : bool := (lo <=? v) && (v <=? hi).

(** Well-formed two-, three- and four-byte sequences (Unicode table 3-7,
    which CPython's decoder follows). *)
Definition utf8_two (v0 v1 : Z) : bool :=
  in_range 0xC2 0xDF v0 && is_cont v1.

Definition utf8_three (v0 v1 v2 : Z) : bool :=
  ((v0 =? 0xE0) && in_range 0xA0 0xBF v1
   || in_range 0xE1 0xEC v0 && is_cont v1
   || (v0 =? 0xED) && in_range 0x80 0x9F v1
   || in_range 0xEE 0xEF v0 && is_cont v1)
  && is_cont v2.

Definition utf8_four (v0 v1 v2 v3 : Z) : bool :=
  ((v0 =? 0xF0) && in_range 0x90 0xBF v1
   || in_range 0xF1 0xF3 v0 && is_cont v1
   || (v0 =? 0xF4) && in_range 0x80 0x8F v1)
  && is_cont v2 && is_cont v3.

Definition chr (b : byte) : ascii := ascii_of_byte b.

(** [b.decode('utf-8', errors='ignore')].  The resulting [str] is held
    as its UTF-8 encoding, so decoding keeps exactly the bytes of the
    well-formed sequences.  CPython skips the maximal ill-formed prefix
    at an error; the bytes of that prefix after the first are
    continuation bytes, which are ill-formed on their own, so skipping
    one byte at a time yields the same text. *)
Fixpoint decode_utf8_ignore (b : bytes) : string :=
  match b with
  | [] => ""
  | b0 :: t0 =>
      if byte_val b0 <? 0x80 then String (chr b0) (decode_utf8_ignore t0)
      else
        match t0 with
        | [] => ""
        | b1 :: t1 =>
            if utf8_two (byte_val b0) (byte_val b1)
            then String (chr b0) (String (chr b1) (decode_utf8_ignore t1))
            else
              match t1 with
              | [] => decode_utf8_ignore t0
              | b2 :: t2 =>
                  if utf8_three (byte_val b0) (byte_val b1) (byte_val b2)
                  then String (chr b0) (String (chr b1) (String (chr b2)
                                 (decode_utf8_ignore t2)))
                  else
                    match t2 with
                    | [] => decode_utf8_ignore t0
                    | b3 :: t3 =>
                        if utf8_four (byte_val b0) (byte_val b1)
                                     (byte_val b2) (byte_val b3)
                        then String (chr b0) (String (chr b1)
                               (String (chr b2) (String (chr b3)
                                  (decode_utf8_ignore t3))))
                        else decode_utf8_ignore t0
                    end
              end
        end
  end.

End Py.

Import Py.

Notation "x <- c ;; k" := (Py.bind c (fun x => k))
  (at level 61, c at next level, right associativity).

(* ------------------------------------------------------------------ *)
(** ** RTPS constants *)

Definition RTPS_SUBMSG_DATA : Z := 0x15.

(** A dictionary literal, in insertion order. *)
Definition dict (V : Type) := list (Z * V).

Fixpoint dict_get {V} (d : dict V) (k : Z) : option V :=
  match d with
  | [] => None
  | (k', v) :: d' => if k =? k' then Some v else dict_get d' k
  end.

Definition ENTITY_IDS : dict string :=
  [ (0x000000C0, "ENTITYID_UNKNOWN");
    (0x000100C2, "ENTITYID_SPDP_BUILTIN_PARTICIPANT_WRITER");
    (0x000001C1, "ENTITYID_SPDP_BUILTIN_PARTICIPANT_READER");
    (0x000003C2, "ENTITYID_SEDP_BUILTIN_PUBLICATIONS_WRITER");
    (0x000004C2, "ENTITYID_SEDP_BUILTIN_PUBLICATIONS_READER");
    (0x000003C7, "ENTITYID_SEDP_BUILTIN_SUBSCRIPTIONS_WRITER");
    (0x000004C7, "ENTITYID_SEDP_BUILTIN_SUBSCRIPTIONS_READER");
    (0x000200C2, "ENTITYID_SEDP_BUILTIN_TOPIC_WRITER");
    (0x000201C2, "ENTITYID_SEDP_BUILTIN_TOPIC_READER") ].

Definition PID_MAP : dict string :=
  [ (0x0001, "PID_SENTINEL");
    (0x0002, "PID_USER_DATA");
    (0x0003, "PID_TOPIC_NAME");
    (0x0004, "PID_TYPE_NAME");
    (0x0005, "PID_GROUP_DATA");
    (0x0006, "PID_TOPIC_DATA");
    (0x0007, "PID_DURABILITY");
    (0x000B, "PID_DEADLINE");
    (0x000D, "PID_LATENCY_BUDGET");
    (0x000F, "PID_LIVELINESS");
    (0x0011, "PID_RELIABILITY");
    (0x0016, "PID_LIFESPAN");
    (0x001A, "PID_DESTINATION_ORDER");
    (0x001D, "PID_PRESENTATION");
    (0x001F, "PID_PARTITION");
    (0x0023, "PID_TIME_BASED_FILTER");
    (0x0025, "PID_OWNERSHIP");
    (0x0029, "PID_OWNERSHIP_STRENGTH");
    (0x002B, "PID_DESTINATION_ORDER");
    (0x002F, "PID_METATRAFFIC_UNICAST_LOCATOR");
    (0x0030, "PID_METATRAFFIC_MULTICAST_LOCATOR");
    (0x0031, "PID_DEFAULT_UNICAST_LOCATOR");
    (0x0032, "PID_DEFAULT_MULTICAST_LOCATOR");
    (0x0033, "PID_METATRAFFIC_UNICAST_IPADDRESS");
    (0x0034, "PID_METATRAFFIC_MULTICAST_IPADDRESS");
    (0x0035, "PID_DEFAULT_UNICAST_IPADDRESS");
    (0x0040, "PID_PROTOCOL_VERSION");
    (0x0041, "PID_VENDOR_ID");
    (0x0043, "PID_MULTICAST_IPADDRESS");
    (0x0044, "PID_DEFAULT_UNICAST_PORT");
    (0x0045, "PID_METATRAFFIC_UNICAST_PORT");
    (0x0046, "PID_METATRAFFIC_MULTICAST_PORT");
    (0x0048, "PID_UNICAST_LOCATOR");
    (0x0050, "PID_EXPECTS_INLINE_QOS");
    (0x0058, "PID_PARTICIPANT_MANUAL_LIVELINESS_COUNT");
    (0x0059, "PID_PARTICIPANT_BUILTIN_ENDPOINTS");
    (0x005A, "PID_ENDPOINT_GUID");
    (0x005B, "PID_PARTICIPANT_GUID");
    (0x005C, "PID_PARTICIPANT_LEASE_DURATION");
    (0x005D, "PID_CONTENT_FILTER_PROPERTY");
    (0x005E, "PID_PARTICIPANT_ENTITY_ID");
    (0x0060, "PID_GROUP_GUID");
    (0x0061, "PID_GROUP_ENTITYID");
    (0x0062, "PID_BUILTIN_ENDPOINT_SET");
    (0x0063, "PID_PROPERTY_LIST");
    (0x0071, "PID_TYPE_MAX_SIZE_SERIALIZED");
    (0x0072, "PID_ENTITY_NAME");
    (0x0073, "PID_KEY_HASH");
    (0x0074, "PID_STATUS_INFO");
    (0x0075, "PID_CONTENT_FILTER_INFO");
    (0x8000, "PID_RELATED_SAMPLE_IDENTITY");
    (0x8001, "PID_TOPIC_QUERY_GUID");
    (0x8002, "PID_DATA_REPRESENTATION");
    (0x8003, "PID_TYPE_CONSISTENCY_ENFORCEMENT");
    (0x8004, "PID_TYPE_INFORMATION");
    (0x8005, "PID_TYPE_OBJECT");
    (0x8007, "PID_DATA_TAGS");
    (0x8014, "PID_EXTENDED_BUILTIN_ENDPOINTS");
    (0x8016, "PID_PRODUCT_VERSION");
    (0x8017, "PID_PLUGIN_PROMISCUITY_KIND");
    (0x8018, "PID_ENTITY_VIRTUAL_GUID");
    (0x8019, "PID_SERVICE_INSTANCE_NAME") ].

Definition REQUIRED_SEDP_WRITER_PIDS : dict string :=
  [ (0x005A, "PID_ENDPOINT_GUID");
    (0x0003, "PID_TOPIC_NAME");
    (0x0004, "PID_TYPE_NAME");
    (0x001A, "PID_RELIABILITY");
    (0x001D, "PID_DURABILITY") ].

Definition REQUIRED_SEDP_READER_PIDS : dict string :=
  [ (0x005A, "PID_ENDPOINT_GUID");
    (0x0003, "PID_TOPIC_NAME");
    (0x0004, "PID_TYPE_NAME");
    (0x001A, "PID_RELIABILITY");
    (0x001D, "PID_DURABILITY") ].

(* ------------------------------------------------------------------ *)
(** ** Entity classification *)

Definition classify_entity_id (entity_id : Z) : string :=
  match dict_get ENTITY_IDS entity_id with
  | Some name =>
      if contains "SPDP" name then "SPDP"
      else if contains "PUBLICATIONS" name then "SEDP_PUB"
      else if contains "SUBSCRIPTIONS" name then "SEDP_SUB"
      else "BUILTIN"
  | None => "USER"
  end.

(* ------------------------------------------------------------------ *)
(** ** Submessage walking *)

(** The keys a DATA submessage of at least 20 body bytes gets in addition. *)
Record DataFields : Type := mkDataFields {
  extra_flags : Z;
  octets_to_inline_qos : Z;
  reader_id : Z;
  writer_id : Z;
  sequence_number : Z;
  entity_type : string;
  payload : bytes
}.

(** The [submsg] dictionary: ['id'], ['flags'], ['length'], ['data'],
    ['offset'], and the DATA keys when present. *)
Record Submessage : Type := mkSubmessage {
  sm_id : Z;
  sm_flags : Z;
  sm_length : Z;
  sm_data : bytes;
  sm_offset : Z;
  sm_fields : option DataFields
}.

(** Lines 293-308: the DATA keys, from the submessage body. *)
Definition parse_data_fields (submsg_data : bytes) : result DataFields :=
  ef <- unpack_le 2 (slice submsg_data 0 2) ;;
  oq <- unpack_le 2 (slice submsg_data 2 4) ;;
  rid <- unpack_be 4 (slice submsg_data 4 8) ;;
  wid <- unpack_be 4 (slice submsg_data 8 12) ;;
  sn <- unpack_le 8 (slice submsg_data 12 20) ;;
  let et := classify_entity_id wid in
  let qos_offset := oq in
  let pl := if qos_offset >=? 20
            then slice_from submsg_data qos_offset
            else slice_from submsg_data 20 in
  Ok (mkDataFields ef oq rid wid sn et pl).

(** One turn of the [while] loop of [parse_submessages], up to and
    including [submessages.append(submsg)]. *)
Definition parse_one_submessage (data : bytes) (offset : Z)
  : result Submessage :=
  submsg_id <- index data offset ;;
  flags <- index data (offset + 1) ;;
  octets_to_next <- unpack_le 2 (slice data (offset + 2) (offset + 4)) ;;
  let submsg_data :=
    if octets_to_next >? 0
    then slice data (offset + 4) (offset + 4 + octets_to_next)
    else [] in
  fields <- (if (submsg_id =? RTPS_SUBMSG_DATA) && (len submsg_data >=? 20)
             then f <- parse_data_fields submsg_data ;; Ok (Some f)
             else Ok None) ;;
  Ok (mkSubmessage submsg_id flags octets_to_next submsg_data offset fields).

Fixpoint parse_submessages_loop (fuel : nat) (data : bytes) (offset : Z)
  : result (list Submessage) :=
  if negb (offset <? len data) then Ok []
  else if offset + 4 >? len data then Ok []
  else
    match fuel with
    | O => OutOfFuel
    | S fuel' =>
        submsg <- parse_one_submessage data offset ;;
        if sm_length submsg =? 0 then Ok [submsg]
        else
          rest <- parse_submessages_loop fuel' data
                    (offset + 4 + sm_length submsg) ;;
          Ok (submsg :: rest)
    end.

(** [parse_submessages(data, offset)].  Every turn of the loop moves the
    offset forward by at least five bytes, so [len(data) - offset] turns
    are more than it can take. *)
Definition parse_submessages (data : bytes) (offset : Z)
  : result (list Submessage) :=
  parse_submessages_loop (Z.to_nat (len data - offset)) data offset.

(* ------------------------------------------------------------------ *)
(** ** CDR parameter-list decoding *)

(** The [param] dictionary; ['decoded'] is an optional key. *)
Record Param : Type := mkParam {
  p_pid : Z;
  p_name : string;
  p_length : Z;
  p_value : bytes;
  p_offset : Z;
  p_decoded : option string
}.

Definition PID_SENTINEL : Z := 0x0001.

Definition DECODE_ERROR : string := "<decode error>".

(** [(length + 3) & ~3] *)
Definition pad4 (length : Z) : Z := Z.land (length + 3) (Z.lnot 3).

(** [PID_MAP.get(pid, f"UNKNOWN_0x{pid:04X}")] *)
Definition pid_name (pid : Z) : string :=
  match dict_get PID_MAP pid with
  | Some n => n
  | None => String.append "UNKNOWN_0x" (format_04X pid)
  end.

(** The body of the [try] of lines 367-370 and 375-377. *)
Definition try_decode_string (param_value : bytes) : result string :=
  str_len <- unpack_le 4 (slice_to param_value 4) ;;
  Ok (decode_utf8_ignore (slice param_value 4 (4 + str_len - 1))).

(** [try: ... except: param['decoded'] = '<decode error>'] *)
Definition decode_string (param_value : bytes) : string :=
  match try_decode_string param_value with
  | Ok s => s
  | _ => DECODE_ERROR
  end.

Definition durability_map : dict string :=
  [ (0, "VOLATILE"); (1, "TRANSIENT_LOCAL"); (2, "TRANSIENT");
    (3, "PERSISTENT") ].

(** Lines 366-394: the value of the ['decoded'] key, if it is set. *)
Definition decode_param (pid : Z) (param_value : bytes)
  : result (option string) :=
  if pid =? 0x0003 then Ok (Some (decode_string param_value))
  else if pid =? 0x0004 then Ok (Some (decode_string param_value))
  else if pid =? 0x005A then
    if len param_value >=? 16
    then Ok (Some (hex (slice_to param_value 16)))
    else Ok None
  else if pid =? 0x001A then
    if len param_value >=? 12
    then kind <- unpack_le 4 (slice param_value 0 4) ;;
         Ok (Some (if kind =? 1 then "RELIABLE" else "BEST_EFFORT"))
    else Ok None
  else if pid =? 0x001D then
    if len param_value >=? 4
    then kind <- unpack_le 4 (slice param_value 0 4) ;;
         Ok (Some (match dict_get durability_map kind with
                   | Some s => s
                   | None => String.append "UNKNOWN("
                               (String.append (str_of_int kind) ")")
                   end))
    else Ok None
  else Ok None.

(** The parameter built from the record at [offset], lines 355-394. *)
Definition parse_one_parameter (data : bytes) (offset pid length : Z)
  : result Param :=
  let param_value :=
    if offset + 4 + length <=? len data
    then slice data (offset + 4) (offset + 4 + length)
    else [] in
  decoded <- decode_param pid param_value ;;
  Ok (mkParam pid (pid_name pid) length param_value offset decoded).

Fixpoint parse_cdr_loop (fuel : nat) (data : bytes) (offset : Z)
  : result (list Param) :=
  if negb (offset + 4 <=? len data) then Ok []
  else
    match fuel with
    | O => OutOfFuel
    | S fuel' =>
        pid <- unpack_le 2 (slice data offset (offset + 2)) ;;
        length <- unpack_le 2 (slice data (offset + 2) (offset + 4)) ;;
        if pid =? PID_SENTINEL then Ok []
        else
          param <- parse_one_parameter data offset pid length ;;
          let padded_length := pad4 length in
          rest <- parse_cdr_loop fuel' data (offset + 4 + padded_length) ;;
          Ok (param :: rest)
    end.

(** [parse_cdr_parameter_list(data)].  Every turn moves the offset forward
    by at least four bytes, so [len(data)] turns are more than the loop
    can take. *)
Definition parse_cdr_parameter_list (data : bytes)
  : result (list Param) :=
  if len data <? 4 then Ok []
  else
    encapsulation <- unpack_le 2 (slice data 0 2) ;;
    parse_cdr_loop (List.length data) data 4.

(* ------------------------------------------------------------------ *)
(** ** SEDP validation *)

(** [f"Missing required PID: {req_name} (0x{req_pid:04X})"] *)
Definition missing_issue (req_pid : Z) (req_name : string) : string :=
  String.append "Missing required PID: "
    (String.append req_name
       (String.append " (0x" (String.append (format_04X req_pid) ")"))).

(** [req_pid in found_pids], with [found_pids = {p['pid'] for p in params}] *)
Definition found (params : list Param) (req_pid : Z) : bool :=
  existsb (fun p => p_pid p =? req_pid) params.

(** Lines 425-427. *)
Definition missing_issues (required : dict string)
           (params : list Param) : list string :=
  flat_map (fun kv => if found params (fst kv) then []
                      else [missing_issue (fst kv) (snd kv)]) required.

(** [not decoded or decoded == '<decode error>'], with
    [decoded = param.get('decoded', '')]. *)
Definition bad_name (param : Param) : bool :=
  let decoded := match p_decoded param with Some s => s | None => "" end in
  String.eqb decoded "" || String.eqb decoded DECODE_ERROR.

(** Lines 430-439. *)
Definition name_issues (params : list Param) : list string :=
  flat_map (fun param =>
              (if (p_pid param =? 0x0003) && bad_name param
               then ["Empty or invalid TOPIC_NAME"] else [])
              ++
              (if (p_pid param =? 0x0004) && bad_name param
               then ["Empty or invalid TYPE_NAME"] else [])) params.

Definition SEQ_ZERO_WARNING : string :=
  "Sequence number is 0 (should start from 1 for Reliable QoS)".

(** [validate_sedp_packet(submsg, params)]: the pair (issues, warnings). *)
Definition validate_sedp_packet (submsg : Submessage)
           (params : list Param) : list string * list string :=
  let entity_type := option_map entity_type (sm_fields submsg) in
  let required :=
    match entity_type with
    | Some et =>
        if String.eqb et "SEDP_PUB" then Some REQUIRED_SEDP_WRITER_PIDS
        else if String.eqb et "SEDP_SUB" then Some REQUIRED_SEDP_READER_PIDS
        else None
    | None => None
    end in
  match required with
  | None => ([], [])
  | Some required =>
      let issues := missing_issues required params ++ name_issues params in
      let seq_num := match sm_fields submsg with
                     | Some f => sequence_number f
                     | None => 0
                     end in
      let warnings := if seq_num =? 0 then [SEQ_ZERO_WARNING] else [] in
      (issues, warnings)
  end.

(* ------------------------------------------------------------------ *)
(** ** Capture reading *)

Inductive endianness : Type := LittleEndian | BigEndian.

(** A packet dictionary.  ['timestamp'] is the float
    [ts_sec + ts_usec / 1e6]; its two integer parts are kept instead. *)
Record Packet : Type := mkPacket {
  pk_num : Z;
  pk_ts_sec : Z;
  pk_ts_usec : Z;
  pk_data : bytes;
  pk_size : Z
}.

Definition field_value (endian : endianness) (b : bytes) : Z :=
  match endian with
  | LittleEndian => le_value b
  | BigEndian => be_value b
  end.

(** [struct.unpack(f'{endian}IIII', pkt_header)] *)
Definition unpack_IIII (endian : endianness) (b : bytes)
  : result (Z * Z * Z * Z) :=
  if Nat.eqb (List.length b) 16
  then Ok (field_value endian (slice b 0 4),
           field_value endian (slice b 4 8),
           field_value endian (slice b 8 12),
           field_value endian (slice b 12 16))
  else Raise StructError.

(** [f.read(n)] on the bytes not yet read: what is read, and what is left. *)
Definition read (n : Z) (f : bytes) : bytes * bytes :=
  (firstn (Z.to_nat n) f, skipn (Z.to_nat n) f).

(** [f"Warning: Packet {packet_num} truncated"] *)
Definition truncated_warning (packet_num : Z) : string :=
  String.append "Warning: Packet "
    (String.append (str_of_int packet_num) " truncated").

(** The [while True] loop of [read_pcap]: the lines printed, and the
    packets appended from here on. *)
Fixpoint read_packets (fuel : nat) (endian : endianness) (f : bytes)
         (packet_num : Z) : list string * result (list Packet) :=
  let (pkt_header, f1) := read 16 f in
  if len pkt_header <? 16 then ([], Ok [])
  else
    match fuel with
    | O => ([], OutOfFuel)
    | S fuel' =>
        let packet_num := packet_num + 1 in
        match unpack_IIII endian pkt_header with
        | Ok (ts_sec, ts_usec, incl_len, orig_len) =>
            let (pkt_data, f2) := read incl_len f1 in
            if len pkt_data <? incl_len
            then ([truncated_warning packet_num], Ok [])
            else
              let pkt := mkPacket packet_num ts_sec ts_usec pkt_data
                                  incl_len in
              let (out, r) := read_packets fuel' endian f2 packet_num in
              (out, rest <- r ;; Ok (pkt :: rest))
        | Raise e => ([], Raise e)
        | OutOfFuel => ([], OutOfFuel)
        end
    end.

(** [read_pcap] on the content of the file: standard output and the
    outcome.  Every turn of the loop reads at least 16 bytes. *)
Definition read_pcap (file : bytes) : list string * result (list Packet) :=
  let (header, f0) := read 24 file in
  if len header <? 24
  then ([], Raise (ValueError "Invalid pcap file: header too short"))
  else
    match unpack_le 4 (slice_to header 4) with
    | Ok magic =>
        if magic =? 0xa1b2c3d4
        then read_packets (List.length file) LittleEndian f0 0
        else if magic =? 0xd4c3b2a1
        then read_packets (List.length file) BigEndian f0 0
        else ([], Raise (ValueError (String.append "Invalid pcap magic: "
                                       (format_08x magic))))
    | Raise e => ([], Raise e)
    | OutOfFuel => ([], OutOfFuel)
    end.

(* ------------------------------------------------------------------ *)
(** ** Decapsulation: Ethernet, IPv4/UDP, RTPS header *)

(** [parse_ethernet(data)]: the IP packet of an IPv4 frame, [None]
    otherwise. *)
Definition parse_ethernet (data : bytes) : result (option bytes) :=
  if len data <? 14 then Ok None
  else
    ethertype <- unpack_be 2 (slice data 12 14) ;;
    if negb (ethertype =? 0x0800) then Ok None
    else Ok (Some (slice_from data 14)).

(** The dictionary [parse_ip] returns. *)
Record Udp : Type := mkUdp {
  src_ip : string;
  dst_ip : string;
  src_port : Z;
  dst_port : Z;
  udp_payload : bytes
}.

(** ['.'.join(str(b) for b in data)] *)
Definition dotted (b : bytes) : string :=
  String.concat "." (map (fun x => str_of_int (byte_val x)) b).

(** [parse_ip(data)]: the UDP datagram of an IPv4 packet, [None]
    otherwise. *)
Definition parse_ip (data : bytes) : result (option Udp) :=
  if len data <? 20 then Ok None
  else
    version_ihl <- index data 0 ;;
    let version := Z.shiftr version_ihl 4 in
    let ihl := Z.land version_ihl 0x0F * 4 in
    if negb (version =? 4) then Ok None
    else
      protocol <- index data 9 ;;
      if negb (protocol =? 17) then Ok None
      else
        let src := dotted (slice data 12 16) in
        let dst := dotted (slice data 16 20) in
        let udp_data := slice_from data ihl in
        if len udp_data <? 8 then Ok None
        else
          sp <- unpack_be 2 (slice udp_data 0 2) ;;
          dp <- unpack_be 2 (slice udp_data 2 4) ;;
          udp_length <- unpack_be 2 (slice udp_data 4 6) ;;
          Ok (Some (mkUdp src dst sp dp (slice_from udp_data 8))).

(** The dictionary [parse_rtps_header] returns. *)
Record RtpsHeader : Type := mkRtpsHeader {
  protocol_version : string;
  vendor_id : Z;
  guid_prefix : string;
  submessages_offset : Z
}.

(** [b'RTPS'] *)
Definition RTPS_MAGIC : bytes := [x52; x54; x50; x53].

(** [a == b] on byte strings. *)
Fixpoint bytes_eqb (a b : bytes) : bool :=
  match a, b with
  | [], [] => true
  | x :: a', y :: b' => Byte.eqb x y && bytes_eqb a' b'
  | _, _ => false
  end.

(** [parse_rtps_header(data)] *)
Definition parse_rtps_header (data : bytes) : result (option RtpsHeader) :=
  if len data <? 20 then Ok None
  else
    let magic := slice data 0 4 in
    if negb (bytes_eqb magic RTPS_MAGIC) then Ok None
    else
      major <- index data 4 ;;
      minor <- index data 5 ;;
      let pv := String.append (str_of_int major)
                  (String.append "." (str_of_int minor)) in
      vid <- unpack_be 2 (slice data 6 8) ;;
      Ok (Some (mkRtpsHeader pv vid (hex (slice data 8 20)) 20)).

(* ------------------------------------------------------------------ *)
(** ** The analysis of a capture *)

(** Standard output so far, and the outcome. *)
Definition io (A : Type) : Type := list string * result A.

Definition io_ret {A} (a : A) : io A := ([], Ok a).

Definition io_bind {A B} (c : io A) (k : A -> io B) : io B :=
  match c with
  | (out, Ok a) => let (out', r) := k a in (out ++ out', r)
  | (out, Raise e) => (out, Raise e)
  | (out, OutOfFuel) => (out, OutOfFuel)
  end.

(** A computation that prints nothing. *)
Definition io_lift {A} (c : result A) : io A := ([], c).

(** [print(s)] *)
Definition print (s : string) : io unit := ([s], Ok tt).

(** One [print] per string. *)
Definition print_all (l : list string) : io unit := (l, Ok tt).

(** The three counters of [analyze_pcap]. *)
Record Counters : Type := mkCounters {
  rtps_count : Z;
  sedp_count : Z;
  spdp_count : Z
}.

Fixpoint str_repeat (c : ascii) (n : nat) : string :=
  match n with
  | O => ""
  | S n' => String c (str_repeat c n')
  end.

(** [f"{'='*70}"] *)
Definition RULE : string := str_repeat "="%char 70.

Definition newline : string := String (ascii_of_nat 10) "".

(** [f"{n:08X}"] *)
Definition format_08X (n : Z) : string := format_hex true 8 n.

(** [ENTITY_IDS.get(entity_id, 'UNKNOWN')] *)
Definition entity_name (entity_id : Z) : string :=
  match dict_get ENTITY_IDS entity_id with
  | Some n => n
  | None => "UNKNOWN"
  end.

(** String concatenation of the pieces of an f-string. *)
Definition fstr (pieces : list string) : string := String.concat "" pieces.

(** Lines 495-504: the head of the block printed for an announcement. *)
Definition block_header (pkt : Packet) (udp : Udp) (rtps : RtpsHeader)
           (et : string) (f : DataFields) : list string :=
  [ RULE;
    fstr ["Packet #"; str_of_int (pk_num pkt); " - "; et; " Announcement"];
    RULE;
    fstr ["Source: "; src_ip udp; ":"; str_of_int (src_port udp); " -> ";
          dst_ip udp; ":"; str_of_int (dst_port udp)];
    fstr ["Size: "; str_of_int (pk_size pkt); " bytes"];
    fstr ["RTPS GUID Prefix: "; guid_prefix rtps];
    fstr ["Writer EntityID: 0x"; format_08X (writer_id f); " (";
          entity_name (writer_id f); ")"];
    fstr ["Reader EntityID: 0x"; format_08X (reader_id f); " (";
          entity_name (reader_id f); ")"];
    fstr ["Sequence Number: "; str_of_int (sequence_number f)];
    "" ].

(** Line 514: one line of the parameter dump. *)
Definition dump_line (param : Param) : string :=
  let decoded_str := match p_decoded param with
                     | Some d => String.append " = " d
                     | None => ""
                     end in
  fstr ["  [0x"; format_04X (p_pid param); "] "; p_name param; " (len=";
        str_of_int (p_length param); ")"; decoded_str].

(** Lines 521-535: what is printed for the verdict. *)
Definition verdict_lines (issues warnings : list string) : list string :=
  (match issues with
   | [] => []
   | _ => "[X] VALIDATION ISSUES:"
          :: map (fun i => String.append "  - " i) issues ++ [""]
   end)
  ++ (match warnings with
      | [] => []
      | _ => "[!]  WARNINGS:"
             :: map (fun w => String.append "  - " w) warnings ++ [""]
      end)
  ++ (match issues, warnings with
      | [], [] => ["[OK] Packet validation PASSED"; ""]
      | _, _ => []
      end).

(** Lines 495-535: the block of one SEDP announcement. *)
Definition report_announcement (show_params : bool) (pkt : Packet)
           (udp : Udp) (rtps : RtpsHeader) (submsg : Submessage)
           (et : string) (f : DataFields) : io unit :=
  io_bind (print_all (block_header pkt udp rtps et f)) (fun _ =>
  io_bind (io_lift (parse_cdr_parameter_list (payload f))) (fun params =>
  io_bind (print (fstr ["Parameters: ";
                        str_of_int (Z.of_nat (List.length params));
                        " PIDs found"])) (fun _ =>
  io_bind (if show_params then print_all (map dump_line params)
           else io_ret tt) (fun _ =>
  io_bind (print "") (fun _ =>
  let (issues, warnings) := validate_sedp_packet submsg params in
  print_all (verdict_lines issues warnings)))))).

(** Lines 484-535: the loop over the submessages of one packet. *)
Fixpoint analyze_submessages (show_params : bool) (pkt : Packet)
         (udp : Udp) (rtps : RtpsHeader) (submessages : list Submessage)
         (c : Counters) : io Counters :=
  match submessages with
  | [] => io_ret c
  | submsg :: rest =>
      if negb (sm_id submsg =? RTPS_SUBMSG_DATA)
      then analyze_submessages show_params pkt udp rtps rest c
      else
        match sm_fields submsg with
        | None => analyze_submessages show_params pkt udp rtps rest c
        | Some f =>
            let et := entity_type f in
            if String.eqb et "SPDP"
            then analyze_submessages show_params pkt udp rtps rest
                   (mkCounters (rtps_count c) (sedp_count c)
                               (spdp_count c + 1))
            else if String.eqb et "SEDP_PUB" || String.eqb et "SEDP_SUB"
            then
              io_bind (report_announcement show_params pkt udp rtps submsg
                                           et f) (fun _ =>
              analyze_submessages show_params pkt udp rtps rest
                (mkCounters (rtps_count c) (sedp_count c + 1)
                            (spdp_count c)))
            else analyze_submessages show_params pkt udp rtps rest c
        end
  end.

(** Lines 463-535: the body of the loop over the packets. *)
Definition analyze_packet (show_params : bool) (pkt : Packet)
           (c : Counters) : io Counters :=
  io_bind (io_lift (parse_ethernet (pk_data pkt))) (fun ip_pkt =>
  match ip_pkt with
  | None | Some [] => io_ret c
  | Some ip_pkt =>
      io_bind (io_lift (parse_ip ip_pkt)) (fun udp =>
      match udp with
      | None => io_ret c
      | Some udp =>
          io_bind (io_lift (parse_rtps_header (udp_payload udp)))
            (fun rtps =>
          match rtps with
          | None => io_ret c
          | Some rtps =>
              let c := mkCounters (rtps_count c + 1) (sedp_count c)
                                  (spdp_count c) in
              io_bind (io_lift (parse_submessages (udp_payload udp)
                                  (submessages_offset rtps)))
                (fun submessages =>
              analyze_submessages show_params pkt udp rtps submessages c)
          end)
      end)
  end).

Fixpoint analyze_packets (show_params : bool) (packets : list Packet)
         (c : Counters) : io Counters :=
  match packets with
  | [] => io_ret c
  | pkt :: rest =>
      io_bind (analyze_packet show_params pkt c) (fun c' =>
      analyze_packets show_params rest c')
  end.

(** Lines 537-542. *)
Definition summary_lines (c : Counters) : list string :=
  [ RULE;
    "Summary:";
    String.append "  RTPS packets: " (str_of_int (rtps_count c));
    String.append "  SPDP packets: " (str_of_int (spdp_count c));
    String.append "  SEDP packets: " (str_of_int (sedp_count c));
    RULE ].

(** [analyze_pcap(filepath, verbose, dump_pids)] on the content [file] of
    the capture: what is printed, and the counters at the end. *)
Definition analyze_pcap (filepath : string) (file : bytes)
           (verbose dump_pids : bool) : io Counters :=
  io_bind (print (String.append "Reading: " filepath)) (fun _ =>
  io_bind (read_pcap file) (fun packets =>
  io_bind (print (fstr ["Total packets: ";
                        str_of_int (Z.of_nat (List.length packets));
                        newline])) (fun _ =>
  io_bind (analyze_packets (dump_pids || verbose) packets
                           (mkCounters 0 0 0)) (fun c =>
  io_bind (print_all (summary_lines c)) (fun _ =>
  io_ret c))))).

(* ------------------------------------------------------------------ *)
(** ** Vocabulary of the properties, and sample inputs *)

(** Byte [k] of a byte string, as an integer. *)
Definition octet (b : bytes) (k : nat) : Z := byte_val (nth k b x00).

(** The 16-bit little-endian field at byte offset [o]. *)
Definition u16_at (b : bytes) (o : Z) : Z :=
  octet b (Z.to_nat o) + 2 ^ 8 * octet b (Z.to_nat o + 1).

(** The 32-bit little-endian field at the head of a byte string. *)
Definition u32_head (b : bytes) : Z :=
  octet b 0 + 2 ^ 8 * octet b 1 + 2 ^ 16 * octet b 2 + 2 ^ 24 * octet b 3.

(** The role tags. *)
Definition ROLES : list string :=
  ["SPDP"; "SEDP_PUB"; "SEDP_SUB"; "BUILTIN"; "USER"].

(** The body of a yielded submessage lies inside the buffer: its header
    is wholly inside, and its body is the bytes that follow the header,
    at most the declared length of them. *)
Definition within_buffer (data : bytes) (sm : Submessage) : Prop :=
  0 <= sm_offset sm
  /\ sm_offset sm + 4 <= len data
  /\ sm_data sm = firstn (Z.to_nat (sm_length sm))
                          (skipn (Z.to_nat (sm_offset sm + 4)) data)
  /\ sm_offset sm + 4 + len (sm_data sm) <= len data
  /\ len (sm_data sm) <= sm_length sm.

(** The invariant the data model states for a submessage. *)
Definition declared_length_fits (data : bytes) (sm : Submessage) : Prop :=
  sm_offset sm + 4 + sm_length sm <= len data.

(** The kind, the flags and the declared length of a yielded submessage
    are the header bytes at its offset, as read: two bytes, then the
    16-bit little-endian field two bytes further. *)
Definition header_as_read (data : bytes) (sm : Submessage) : Prop :=
  sm_id sm = octet data (Z.to_nat (sm_offset sm))
  /\ sm_flags sm = octet data (Z.to_nat (sm_offset sm) + 1)
  /\ sm_length sm = u16_at data (sm_offset sm + 2).

(** A two-submessage RTPS body: an INFO_TS of two bytes, then a DATA
    submessage from the SEDP publications writer, sequence number 1. *)
Definition sample_submessages : bytes :=
  [x09; x01; x02; x00; xaa; xbb;
   x15; x05; x18; x00;
   x00; x00; x10; x00; x00; x00; x00; x00; x00; x00; x03; xc2;
   x01; x00; x00; x00; x00; x00; x00; x00;
   x00; x03; x00; x00].

(** The 24 body bytes of its DATA submessage. *)
Definition sample_data_body : bytes :=
  [x00; x00; x10; x00; x00; x00; x00; x00; x00; x00; x03; xc2;
   x01; x00; x00; x00; x00; x00; x00; x00;
   x00; x03; x00; x00].

(** The two submessages the walker yields for it. *)
Definition sample_info_ts : Submessage :=
  mkSubmessage 0x09 1 2 [xaa; xbb] 0 None.

Definition sample_data : Submessage :=
  mkSubmessage 0x15 5 24 sample_data_body 6
    (Some (mkDataFields 0 16 0 0x3C2 1 "SEDP_PUB"
             [x00; x03; x00; x00])).

(** A lone header that declares 65535 body bytes in a 4-byte buffer. *)
Definition overrun_buffer : bytes := [x15; x00; xff; xff].

(** The submessage the walker yields for it. *)
Definition overrun_submessage : Submessage :=
  mkSubmessage 0x15 0 65535 [] 0 None.

(** [pad4] in the words of the specification: the declared length
    rounded up to the next multiple of four. *)
Definition round_up4 (length : Z) : Z := 4 * ((length + 3) / 4).

(** The raw value of the record at [o]: the [length] bytes after its
    header when they are all in the buffer, nothing otherwise. *)
Definition raw_value (data : bytes) (o length : Z) : bytes :=
  if o + 4 + length <=? len data
  then firstn (Z.to_nat length) (skipn (Z.to_nat (o + 4)) data)
  else [].

(** The parameters of a walk over the records from offset [o]: it ends
    where fewer than four bytes are left or at a record whose id is the
    sentinel, and otherwise emits the record at [o] and goes on
    [4 + round_up4 length] bytes further. *)
Inductive cdr_walk (data : bytes) : Z -> list Param -> Prop :=
| walk_end o :
    len data < o + 4 ->
    cdr_walk data o []
| walk_sentinel o :
    o + 4 <= len data ->
    u16_at data o = PID_SENTINEL ->
    cdr_walk data o []
| walk_param o decoded ps :
    o + 4 <= len data ->
    u16_at data o <> PID_SENTINEL ->
    let pid := u16_at data o in
    let length := u16_at data (o + 2) in
    decode_param pid (raw_value data o length) = Ok decoded ->
    cdr_walk data (o + 4 + round_up4 length) ps ->
    cdr_walk data o
      (mkParam pid (pid_name pid) length (raw_value data o length) o
               decoded :: ps).

(** The offsets at which the walk looks for a record: offset 4, and the
    offset after each non-sentinel record that has its header in the
    buffer. *)
Inductive record_position (data : bytes) : Z -> Prop :=
| first_record : record_position data 4
| next_record o :
    record_position data o ->
    o + 4 <= len data ->
    u16_at data o <> PID_SENTINEL ->
    record_position data (o + 4 + round_up4 (u16_at data (o + 2))).

(** What the walk says of each parameter it emits. *)
Definition emitted_from (data : bytes) (p : Param) : Prop :=
  p_offset p + 4 <= len data
  /\ p_pid p = u16_at data (p_offset p)
  /\ p_length p = u16_at data (p_offset p + 2)
  /\ p_pid p <> PID_SENTINEL
  /\ p_value p = raw_value data (p_offset p) (p_length p)
  /\ decode_param (p_pid p) (p_value p) = Ok (p_decoded p).

(** A parameter list holding one topic name whose string-length prefix
    is 100 while four bytes of text follow it, then the sentinel. *)
Definition long_prefix_list : bytes :=
  [x00; x03; x00; x00;
   x03; x00; x08; x00;  x64; x00; x00; x00; x41; x42; x43; x44;
   x01; x00; x00; x00].

(** The parameter the decoder emits for it. *)
Definition long_prefix_param : Param :=
  mkParam 0x0003 "PID_TOPIC_NAME" 8
          [x64; x00; x00; x00; x41; x42; x43; x44] 4 (Some "ABCD").

(** A parameter list with the topic name "TempSensor": prefix 11, the
    text, its terminator and one byte of padding; then the sentinel. *)
Definition temp_sensor_list : bytes :=
  [x00; x03; x00; x00;
   x03; x00; x10; x00;
     x0b; x00; x00; x00;  x54; x65; x6d; x70; x53; x65; x6e; x73; x6f; x72;
     x00; x00;
   x01; x00; x00; x00].

(** A parameter list whose second record declares 16 value bytes where
    four are left. *)
Definition overrun_list : bytes :=
  [x00; x03; x00; x00;
   x03; x00; x08; x00;  x04; x00; x00; x00; x41; x42; x43; x00;
   x1a; x00; x10; x00;  x01; x02; x00; x00].

(** Every key of [required] is the id of some parameter. *)
Definition all_found (required : dict string) (params : list Param)
  : Prop :=
  forall pid, In pid (map fst required) ->
              exists p, In p params /\ p_pid p = pid.

(** The text of a name parameter is present, non-empty and not the
    decode-error marker. *)
Definition good_name (p : Param) : Prop :=
  exists s, p_decoded p = Some s /\ s <> "" /\ s <> DECODE_ERROR.

(** A parameter list with the five required parameter names as the PID
    table numbers them: endpoint GUID 0x005A, topic name 0x0003, type
    name 0x0004, reliability 0x0011, durability 0x0007. *)
Definition pid_map_list : bytes :=
  [x00; x03; x00; x00;
   x5a; x00; x10; x00;
     x01; x02; x03; x04; x05; x06; x07; x08;
     x09; x0a; x0b; x0c; x00; x00; x01; x02;
   x03; x00; x08; x00;  x04; x00; x00; x00; x54; x6f; x70; x00;
   x04; x00; x08; x00;  x04; x00; x00; x00; x54; x79; x70; x00;
   x11; x00; x0c; x00;
     x01; x00; x00; x00; x00; x00; x00; x00; x00; x00; x00; x00;
   x07; x00; x04; x00;  x01; x00; x00; x00;
   x01; x00; x00; x00].

Definition pid_map_params : list Param :=
  [ mkParam 0x005A "PID_ENDPOINT_GUID" 16
      [x01; x02; x03; x04; x05; x06; x07; x08;
       x09; x0a; x0b; x0c; x00; x00; x01; x02] 4
      (Some "0102030405060708090a0b0c00000102");
    mkParam 0x0003 "PID_TOPIC_NAME" 8
      [x04; x00; x00; x00; x54; x6f; x70; x00] 24 (Some "Top");
    mkParam 0x0004 "PID_TYPE_NAME" 8
      [x04; x00; x00; x00; x54; x79; x70; x00] 36 (Some "Typ");
    mkParam 0x0011 "PID_RELIABILITY" 12
      [x01; x00; x00; x00; x00; x00; x00; x00; x00; x00; x00; x00] 48
      None;
    mkParam 0x0007 "PID_DURABILITY" 4 [x01; x00; x00; x00] 64 None ].

(** The same list with reliability and durability numbered as the
    required tables number them, 0x001A and 0x001D. *)
Definition compliant_params : list Param :=
  [ mkParam 0x005A "PID_ENDPOINT_GUID" 16
      [x01; x02; x03; x04; x05; x06; x07; x08;
       x09; x0a; x0b; x0c; x00; x00; x01; x02] 4
      (Some "0102030405060708090a0b0c00000102");
    mkParam 0x0003 "PID_TOPIC_NAME" 8
      [x04; x00; x00; x00; x54; x6f; x70; x00] 24 (Some "Top");
    mkParam 0x0004 "PID_TYPE_NAME" 8
      [x04; x00; x00; x00; x54; x79; x70; x00] 36 (Some "Typ");
    mkParam 0x001A "PID_DESTINATION_ORDER" 12
      [x01; x00; x00; x00; x00; x00; x00; x00; x00; x00; x00; x00] 48
      (Some "RELIABLE");
    mkParam 0x001D "PID_PRESENTATION" 4 [x01; x00; x00; x00] 64
      (Some "TRANSIENT_LOCAL") ].

(** [compliant_params] without its topic name. *)
Definition params_without_topic : list Param :=
  filter (fun p => negb (p_pid p =? 0x0003)) compliant_params.

(** The ids the PID table gives to a name. *)
Definition pids_named (name : string) : list Z :=
  map fst (filter (fun kv => String.eqb (snd kv) name) PID_MAP).

(** The [k]-th 32-bit field of a record header. *)
Definition header_field (endian : endianness) (h : bytes) (k : nat) : Z :=
  field_value endian (firstn 4 (skipn (4 * k) h)).

(** The magic number a capture of the given byte order starts with, read
    little-endian. *)
Definition magic_of (endian : endianness) : Z :=
  match endian with
  | LittleEndian => 0xa1b2c3d4
  | BigEndian => 0xd4c3b2a1
  end.

Definition pcap_header (endian : endianness) (hdr : bytes) : Prop :=
  List.length hdr = 24%nat /\ u32_head hdr = magic_of endian.

(** A record with its frame data whole: a 16-byte header whose captured
    length is the length of the data. *)
Definition complete_record (endian : endianness) (r : bytes * bytes)
  : Prop :=
  List.length (fst r) = 16%nat /\ header_field endian (fst r) 2 = len (snd r).

(** The bytes of a sequence of records. *)
Definition records_bytes (recs : list (bytes * bytes)) : bytes :=
  flat_map (fun r => fst r ++ snd r) recs.

(** The packets of a sequence of complete records, numbered after [n]. *)
Fixpoint packets_from (endian : endianness) (n : Z)
         (recs : list (bytes * bytes)) : list Packet :=
  match recs with
  | [] => []
  | (h, d) :: recs' =>
      mkPacket (n + 1) (header_field endian h 0) (header_field endian h 1)
               d (len d)
      :: packets_from endian (n + 1) recs'
  end.

(** A little-endian capture header. *)
Definition sample_header : bytes :=
  [xd4; xc3; xb2; xa1] ++ repeat x00 20.

(** A record of two frame bytes, captured at second 1, microsecond 2. *)
Definition sample_record : bytes * bytes :=
  ([x01; x00; x00; x00;  x02; x00; x00; x00;
    x02; x00; x00; x00;  x02; x00; x00; x00],
   [xaa; xbb]).

(** A record header that declares three frame bytes. *)
Definition sample_record_header : bytes :=
  [x01; x00; x00; x00;  x03; x00; x00; x00;
   x03; x00; x00; x00;  x03; x00; x00; x00].

(** The packet of [sample_record] when it is the first of a capture. *)
Definition sample_packet : Packet := mkPacket 1 1 2 [xaa; xbb] 2.

(** The 16-bit big-endian field at byte index [o]. *)
Definition u16be_at (b : bytes) (o : nat) : Z :=
  2 ^ 8 * octet b o + octet b (o + 1).

(** The version and the header length, in bytes, that the first byte of
    an IPv4 packet gives. *)
Definition ip_version (data : bytes) : Z := octet data 0 / 16.

Definition ip_header_length (data : bytes) : Z := 4 * (octet data 0 mod 16).

(** The conditions under which [parse_ip] returns a datagram. *)
Definition udp_over_ipv4 (data : bytes) : Prop :=
  20 <= len data
  /\ ip_version data = 4
  /\ octet data 9 = 17
  /\ ip_header_length data + 8 <= len data.

(** The submessages of a walk from offset [o]: each starts where the
    one before it ends, its declared length is a 16-bit value, and one of
    declared length 0 is the last. *)
Fixpoint advances (o : Z) (sms : list Submessage) : Prop :=
  match sms with
  | [] => True
  | sm :: rest =>
      sm_offset sm = o
      /\ 0 <= sm_length sm < 65536
      /\ (sm_length sm = 0 -> rest = [])
      /\ advances (o + 4 + sm_length sm) rest
  end.

(** The offset after the last submessage of a walk from [o]. *)
Fixpoint walk_end_offset (o : Z) (sms : list Submessage) : Z :=
  match sms with
  | [] => o
  | sm :: rest => walk_end_offset (sm_offset sm + 4 + sm_length sm) rest
  end.

(** The offset after the last parameter of a walk from [o]. *)
Fixpoint cdr_end (o : Z) (ps : list Param) : Z :=
  match ps with
  | [] => o
  | p :: rest => cdr_end (p_offset p + 4 + round_up4 (p_length p)) rest
  end.

(** The record of [p] ends before the record of [q] starts. *)
Definition record_before (p q : Param) : Prop :=
  p_offset p + 4 + p_length p <= p_offset q.

(** The text the durability kind [kind] is shown as. *)
Definition durability_text (kind : Z) : string :=
  if kind =? 0 then "VOLATILE"
  else if kind =? 1 then "TRANSIENT_LOCAL"
  else if kind =? 2 then "TRANSIENT"
  else if kind =? 3 then "PERSISTENT"
  else String.append "UNKNOWN(" (String.append (str_of_int kind) ")").

(** The byte of value [v], for [v] in 0..255. *)
Definition byte_of_Z (v : Z) : byte :=
  match Byte.of_N (Z.to_N v) with
  | Some b => b
  | None => x00
  end.

(** The [n] bytes of [v], least significant first. *)
Fixpoint le_bytes (n : nat) (v : Z) : bytes :=
  match n with
  | O => []
  | S n' => byte_of_Z (v mod 256) :: le_bytes n' (v / 256)
  end.

(** The bytes of a text of 7-bit characters. *)
Definition text_bytes (s : string) : bytes :=
  map byte_of_ascii (list_ascii_of_string s).

Definition is_ascii (s : string) : Prop :=
  Forall (fun c => (N_of_ascii c < 128)%N) (list_ascii_of_string s).

(** The value of a name parameter as the wire format has it: the 32-bit
    little-endian count of the text and its terminator, the text, the
    terminator, and padding. *)
Definition name_value (text pad : bytes) : bytes :=
  le_bytes 4 (len text + 1) ++ text ++ x00 :: pad.

(** A parameter list of one parameter and the sentinel. *)
Definition one_parameter_list (encapsulation : bytes) (pid : Z)
           (value : bytes) : bytes :=
  encapsulation ++ le_bytes 2 pid ++ le_bytes 2 (len value) ++ value
  ++ [x01; x00; x00; x00].

(** The UDP datagram and RTPS header of a frame that carries an RTPS
    message, [None] for any other frame. *)
Definition decapsulate (frame : bytes) : option (Udp * RtpsHeader) :=
  match parse_ethernet frame with
  | Ok (Some (b :: ip_pkt)) =>
      match parse_ip (b :: ip_pkt) with
      | Ok (Some udp) =>
          match parse_rtps_header (udp_payload udp) with
          | Ok (Some rtps) => Some (udp, rtps)
          | _ => None
          end
      | _ => None
      end
  | _ => None
  end.

(** The roles of the DATA submessages that carry one, in order. *)
Definition sm_roles (sms : list Submessage) : list string :=
  flat_map (fun sm =>
              if sm_id sm =? RTPS_SUBMSG_DATA
              then match sm_fields sm with
                   | Some f => [entity_type f]
                   | None => []
                   end
              else []) sms.

(** The roles announced in an RTPS message. *)
Definition roles_of (message : bytes) : list string :=
  match parse_submessages message 20 with
  | Ok sms => sm_roles sms
  | _ => []
  end.

(** The roles announced in the packets of a capture. *)
Definition announced_roles (packets : list Packet) : list string :=
  flat_map (fun pkt => match decapsulate (pk_data pkt) with
                       | Some (udp, _) => roles_of (udp_payload udp)
                       | None => []
                       end) packets.

(** The packets that carry an RTPS message. *)
Definition rtps_packets (packets : list Packet) : list Packet :=
  filter (fun pkt => match decapsulate (pk_data pkt) with
                     | Some _ => true
                     | None => false
                     end) packets.

(** How many of [roles] are [role]. *)
Definition count_role (role : string) (roles : list string) : Z :=
  Z.of_nat (List.length (filter (fun r => String.eqb r role) roles)).

(** [f"Total packets: {n}\n"] *)
Definition total_line (n : nat) : string :=
  fstr ["Total packets: "; str_of_int (Z.of_nat n); newline].

(** The parameter list of [compliant_params]. *)
Definition compliant_list : bytes :=
  [x00; x03; x00; x00;
   x5a; x00; x10; x00;
     x01; x02; x03; x04; x05; x06; x07; x08;
     x09; x0a; x0b; x0c; x00; x00; x01; x02;
   x03; x00; x08; x00;  x04; x00; x00; x00; x54; x6f; x70; x00;
   x04; x00; x08; x00;  x04; x00; x00; x00; x54; x79; x70; x00;
   x1a; x00; x0c; x00;
     x01; x00; x00; x00; x00; x00; x00; x00; x00; x00; x00; x00;
   x1d; x00; x04; x00;  x01; x00; x00; x00;
   x01; x00; x00; x00].

(** An RTPS message of vendor 0x010F: the header, then one DATA
    submessage from the SEDP publications writer, sequence number 1, that
    carries [compliant_list]. *)
Definition sedp_message : bytes :=
  [x52; x54; x50; x53; x02; x03; x01; x0f;
   x01; x02; x03; x04; x05; x06; x07; x08; x09; x0a; x0b; x0c]
  ++ [x15; x05; x60; x00]
  ++ [x00; x00; x10; x00; x00; x00; x00; x00; x00; x00; x03; xc2;
      x01; x00; x00; x00; x00; x00; x00; x00]
  ++ compliant_list.

(** The message in a UDP datagram from 10.0.0.1:7410 to 239.255.0.1:7400,
    in an IPv4 packet, in an Ethernet frame. *)
Definition sedp_frame : bytes :=
  repeat x00 12 ++ [x08; x00]
  ++ [x45; x00; x00; x00; x00; x00; x00; x00; x40; x11; x00; x00;
      x0a; x00; x00; x01; xef; xff; x00; x01]
  ++ [x1c; xf2; x1c; xe8; x00; x00; x00; x00]
  ++ sedp_message.

(** A little-endian capture of that one frame (162 bytes). *)
Definition sedp_capture : bytes :=
  sample_header
  ++ [x01; x00; x00; x00;  x02; x00; x00; x00;
      xa2; x00; x00; x00;  xa2; x00; x00; x00]
  ++ sedp_frame.

(* ------------------------------------------------------------------ *)
(** ** Facts about the primitives *)

(** [H] bounds the length of the byte string [b] from below: name its
    first byte. *)
Ltac expose_byte b H :=
  destruct b as [| ? b];
  [exfalso; unfold len in H; cbn [List.length] in H; lia |].

Section PrimitiveFacts.

Lemma bind_Ok_inv {A B} (c : result A) (k : A -> result B) (b : B) :
  bind c k = Ok b -> exists a, c = Ok a /\ k a = Ok b.
Proof. destruct c; cbn; try discriminate. eauto. Qed.

Lemma bind_in_budget {A B} (c : result A) (k : A -> result B) :
  c <> OutOfFuel -> (forall a, c = Ok a -> k a <> OutOfFuel) ->
  bind c k <> OutOfFuel.
Proof. destruct c; cbn; try congruence. intros _ H. now apply H. Qed.

Lemma index_in_budget (b : bytes) (i : Z) : index b i <> OutOfFuel.
Proof.
  unfold index. destruct (_ <? 0); [discriminate |].
  destruct (nth_error _ _); discriminate.
Qed.

Lemma unpack_le_in_budget (n : nat) (b : bytes) : unpack_le n b <> OutOfFuel.
Proof. unfold unpack_le. destruct (Nat.eqb _ _); discriminate. Qed.

Lemma unpack_be_in_budget (n : nat) (b : bytes) : unpack_be n b <> OutOfFuel.
Proof. unfold unpack_be. destruct (Nat.eqb _ _); discriminate. Qed.

Lemma len_nonneg (b : bytes) : 0 <= len b.
Proof. unfold len. lia. Qed.

Lemma byte_val_range (x : byte) : 0 <= byte_val x < 256.
Proof.
  unfold byte_val. pose proof (Byte.to_N_bounded x) as H.
  lia.
Qed.

Lemma clamp_nonneg (n i : Z) : 0 <= i -> clamp n i = Z.min i n.
Proof.
  intros H. unfold clamp.
  destruct (i <? 0) eqn:E; [apply Z.ltb_lt in E; lia | reflexivity].
Qed.

(** A slice with non-negative bounds, in list terms. *)
Lemma slice_nonneg (b : bytes) (lo hi : Z) :
  0 <= lo -> 0 <= hi ->
  slice b lo hi = firstn (Z.to_nat (hi - lo)) (skipn (Z.to_nat lo) b).
Proof.
  intros Hlo Hhi. unfold slice.
  rewrite !clamp_nonneg by assumption.
  pose proof (len_nonneg b) as Hn. unfold len in *.
  destruct (Z_le_gt_dec lo (Z.of_nat (List.length b))) as [Hl | Hl].
  - rewrite (Z.min_l lo) by assumption.
    destruct (Z_le_gt_dec hi (Z.of_nat (List.length b))) as [Hh | Hh].
    + rewrite (Z.min_l hi) by assumption. reflexivity.
    + rewrite (Z.min_r hi) by lia.
      rewrite !firstn_all2; try reflexivity; rewrite length_skipn; lia.
  - rewrite (Z.min_r lo) by lia.
    rewrite !skipn_all2 by lia. now rewrite !firstn_nil.
Qed.

Lemma slice_length_inside (b : bytes) (lo hi : Z) :
  0 <= lo -> lo <= hi -> hi <= len b ->
  List.length (slice b lo hi) = Z.to_nat (hi - lo).
Proof.
  intros Hlo Hle Hhi. rewrite slice_nonneg by lia.
  rewrite length_firstn, length_skipn. unfold len in Hhi. lia.
Qed.

Lemma slice_from_nonneg (b : bytes) (lo : Z) :
  0 <= lo -> slice_from b lo = skipn (Z.to_nat lo) b.
Proof.
  intros Hlo. unfold slice_from. rewrite clamp_nonneg by assumption.
  unfold len.
  destruct (Z_le_gt_dec lo (Z.of_nat (List.length b))).
  - now rewrite Z.min_l.
  - rewrite Z.min_r by lia. rewrite !skipn_all2 by lia. reflexivity.
Qed.

Lemma slice_to_nonneg (b : bytes) (hi : Z) :
  0 <= hi -> slice_to b hi = firstn (Z.to_nat hi) b.
Proof.
  intros Hhi. unfold slice_to. rewrite clamp_nonneg by assumption.
  unfold len.
  destruct (Z_le_gt_dec hi (Z.of_nat (List.length b))).
  - now rewrite Z.min_l.
  - rewrite Z.min_r by lia. rewrite !firstn_all2 by lia. reflexivity.
Qed.

Lemma index_inside (b : bytes) (i : Z) :
  0 <= i < len b ->
  exists x, nth_error b (Z.to_nat i) = Some x /\ index b i = Ok (byte_val x).
Proof.
  intros [Hi Hn]. unfold index, len in *.
  destruct (i <? 0) eqn:E; [apply Z.ltb_lt in E; lia |].
  rewrite E.
  destruct (nth_error b (Z.to_nat i)) as [x |] eqn:Hx.
  - exists x. split; reflexivity.
  - apply nth_error_None in Hx. lia.
Qed.

Lemma unpack_le_exact (n : nat) (b : bytes) :
  List.length b = n -> unpack_le n b = Ok (le_value b).
Proof. intros H. unfold unpack_le. now rewrite H, Nat.eqb_refl. Qed.

Lemma unpack_le_inv (n : nat) (b : bytes) (v : Z) :
  unpack_le n b = Ok v -> List.length b = n /\ v = le_value b.
Proof.
  unfold unpack_le. destruct (Nat.eqb (List.length b) n) eqn:E;
    [| discriminate].
  intros H. inversion H. apply Nat.eqb_eq in E. now split.
Qed.

Lemma le_value_bound (b : bytes) :
  0 <= le_value b < 256 ^ Z.of_nat (List.length b).
Proof.
  induction b as [| x r IH].
  - cbn. lia.
  - cbn [le_value List.length]. pose proof (byte_val_range x).
    rewrite Nat2Z.inj_succ, Z.pow_succ_r by lia. lia.
Qed.

(** A 16-bit field read inside the buffer. *)
Lemma unpack_u16_inside (b : bytes) (o : Z) :
  0 <= o -> o + 2 <= len b ->
  exists v, unpack_le 2 (slice b o (o + 2)) = Ok v /\ 0 <= v < 65536.
Proof.
  intros Ho Hn. exists (le_value (slice b o (o + 2))).
  assert (Hl : List.length (slice b o (o + 2)) = 2%nat).
  { rewrite slice_length_inside by lia. lia. }
  split; [now apply unpack_le_exact |].
  pose proof (le_value_bound (slice b o (o + 2))) as Hb.
  rewrite Hl in Hb. exact Hb.
Qed.

Lemma skipn_cons_nth (l : bytes) (n : nat) :
  (n < List.length l)%nat -> skipn n l = nth n l x00 :: skipn (S n) l.
Proof.
  revert n. induction l as [| x l IH]; intros n H; cbn in H; [lia |].
  destruct n as [| n]; [reflexivity |].
  cbn [skipn nth]. apply IH. lia.
Qed.

Lemma unpack_u16_at (b : bytes) (o : Z) :
  0 <= o -> o + 2 <= len b ->
  unpack_le 2 (slice b o (o + 2)) = Ok (u16_at b o).
Proof.
  intros Ho Hn. rewrite slice_nonneg by lia.
  replace (Z.to_nat (o + 2 - o)) with 2%nat by lia.
  unfold len in Hn.
  rewrite (skipn_cons_nth b (Z.to_nat o)) by lia.
  rewrite (skipn_cons_nth b (S (Z.to_nat o))) by lia.
  cbn [firstn unpack_le List.length Nat.eqb le_value].
  unfold u16_at, octet. rewrite Nat.add_1_r. f_equal. lia.
Qed.

Lemma u16_at_range (b : bytes) (o : Z) : 0 <= u16_at b o < 65536.
Proof.
  unfold u16_at, octet.
  pose proof (byte_val_range (nth (Z.to_nat o) b x00)).
  pose proof (byte_val_range (nth (Z.to_nat o + 1) b x00)).
  lia.
Qed.

Lemma unpack_u32_head (b : bytes) :
  4 <= len b -> unpack_le 4 (firstn 4 b) = Ok (u32_head b).
Proof.
  intros H.
  do 4 (expose_byte b H).
  cbn [firstn unpack_le List.length Nat.eqb le_value].
  unfold u32_head, octet. cbn [nth]. f_equal. lia.
Qed.

(** [(n + 3) & ~3] is [n] rounded up to a multiple of four. *)
Lemma pad4_round_up (n : Z) : pad4 n = 4 * ((n + 3) / 4).
Proof.
  unfold pad4. change 3 with (Z.ones 2) at 2.
  rewrite <- Z.ldiff_land, Z.ldiff_ones_r by lia.
  rewrite Z.shiftl_mul_pow2, Z.shiftr_div_pow2 by lia.
  change (2 ^ 2) with 4. lia.
Qed.

Lemma pad4_bounds (n : Z) : n <= pad4 n < n + 4 /\ pad4 n mod 4 = 0.
Proof.
  rewrite pad4_round_up.
  pose proof (Z.div_mod (n + 3) 4 ltac:(lia)) as Hd.
  pose proof (Z.mod_pos_bound (n + 3) 4 ltac:(lia)) as Hm.
  split; [lia |].
  rewrite Z.mul_comm. apply Z.mod_mul. lia.
Qed.

End PrimitiveFacts.

(* ------------------------------------------------------------------ *)
(** ** Entity classification: properties *)

Section Classifier.

Lemma dict_get_absent {V} (d : dict V) (k : Z) :
  ~ In k (map fst d) -> dict_get d k = None.
Proof.
  induction d as [| [k' v] d IH]; intros H; cbn in *.
  - reflexivity.
  - destruct (k =? k') eqn:E.
    + apply Z.eqb_eq in E. subst. tauto.
    + apply IH. tauto.
Qed.

(** C7: [classify_entity_id] returns one of the five role tags on every
    entity id; it sends 0x000003C2 to SEDP_PUB, 0x000001C1 to SPDP,
    0xDEADBEEF to USER, and every id that is not a key of the
    entity-id table to USER. *)
Theorem classify_entity_id_total :
  (forall entity_id, In (classify_entity_id entity_id) ROLES)
  /\ classify_entity_id 0x000003C2 = "SEDP_PUB"
  /\ classify_entity_id 0x000001C1 = "SPDP"
  /\ classify_entity_id 0xDEADBEEF = "USER"
  /\ (forall entity_id,
         ~ In entity_id (map fst ENTITY_IDS) ->
         classify_entity_id entity_id = "USER").
Proof.
  split; [| split; [| split; [| split]]]; try reflexivity.
  - intros e. unfold classify_entity_id, ROLES.
    destruct (dict_get ENTITY_IDS e) as [name |]; [| cbn; tauto].
    destruct (contains "SPDP" name); [cbn; tauto |].
    destruct (contains "PUBLICATIONS" name); [cbn; tauto |].
    destruct (contains "SUBSCRIPTIONS" name); cbn; tauto.
  - intros e H. unfold classify_entity_id.
    now rewrite (dict_get_absent _ _ H).
Qed.

End Classifier.

(* ------------------------------------------------------------------ *)
(** ** Submessage walking: properties *)

Section SubmessageWalker.

Lemma slice_const (b : bytes) (lo hi : Z) (n m : nat) :
  Z.to_nat lo = n -> Z.to_nat (hi - lo) = m -> 0 <= lo -> 0 <= hi ->
  slice b lo hi = firstn m (skipn n b).
Proof. intros <- <- Hlo Hhi. now apply slice_nonneg. Qed.

(** What [parse_data_fields] computes on a body of at least 20 bytes,
    byte by byte. *)
Lemma parse_data_fields_bytes (body : bytes) :
  20 <= len body ->
  parse_data_fields body =
    let qos := octet body 2 + 2 ^ 8 * octet body 3 in
    let wid := 2 ^ 24 * octet body 8 + 2 ^ 16 * octet body 9
               + 2 ^ 8 * octet body 10 + octet body 11 in
    Ok {| extra_flags := octet body 0 + 2 ^ 8 * octet body 1;
          octets_to_inline_qos := qos;
          reader_id := 2 ^ 24 * octet body 4 + 2 ^ 16 * octet body 5
                       + 2 ^ 8 * octet body 6 + octet body 7;
          writer_id := wid;
          sequence_number :=
            octet body 12 + 2 ^ 8 * octet body 13
            + 2 ^ 16 * octet body 14 + 2 ^ 24 * octet body 15
            + 2 ^ 32 * octet body 16 + 2 ^ 40 * octet body 17
            + 2 ^ 48 * octet body 18 + 2 ^ 56 * octet body 19;
          entity_type := classify_entity_id wid;
          payload := skipn (Z.to_nat (if 20 <=? qos then qos else 20))
                           body |}.
Proof.
  intros H. unfold parse_data_fields.
  rewrite (slice_const body 0 2 0 2), (slice_const body 2 4 2 2),
    (slice_const body 4 8 4 4), (slice_const body 8 12 8 4),
    (slice_const body 12 20 12 8) by (try reflexivity; lia).
  rewrite (slice_from_nonneg body 20) by lia.
  do 20 (expose_byte body H).
  unfold octet.
  cbn [firstn skipn unpack_le unpack_be List.length Nat.eqb bind
       le_value be_value fold_left nth].
  cbv zeta.
  do 2 f_equal; try lia; try (f_equal; lia).
  rewrite Z.geb_leb.
  replace (byte_val b1 + 256 * (byte_val b2 + 256 * 0))
    with (byte_val b1 + 2 ^ 8 * byte_val b2) by lia.
  destruct (20 <=? byte_val b1 + 2 ^ 8 * byte_val b2) eqn:E;
    [| reflexivity].
  apply Z.leb_le in E. apply slice_from_nonneg. lia.
Qed.

Lemma parse_one_submessage_inside (data : bytes) (offset : Z) :
  0 <= offset -> offset + 4 <= len data ->
  exists sm,
    parse_one_submessage data offset = Ok sm
    /\ sm_offset sm = offset
    /\ 0 <= sm_length sm
    /\ within_buffer data sm.
Proof.
  intros Ho Hn. unfold parse_one_submessage.
  destruct (index_inside data offset) as (x0 & _ & ->); [lia |].
  destruct (index_inside data (offset + 1)) as (x1 & _ & ->); [lia |].
  destruct (unpack_u16_inside data (offset + 2)) as (n & Hu & Hr);
    [lia | lia |].
  replace (offset + 2 + 2) with (offset + 4) in Hu by lia.
  rewrite Hu. cbn [bind].
  set (body := if n >? 0 then slice data (offset + 4) (offset + 4 + n)
               else []).
  assert (Hbody : body = firstn (Z.to_nat n)
                           (skipn (Z.to_nat (offset + 4)) data)).
  { subst body. destruct (n >? 0) eqn:E.
    - rewrite slice_nonneg by lia. do 2 f_equal. lia.
    - assert (n = 0) by (rewrite Z.gtb_ltb in E; apply Z.ltb_ge in E; lia).
      subst n. reflexivity. }
  assert (Hlen : offset + 4 + len body <= len data /\ len body <= n).
  { rewrite Hbody. unfold len in *.
    rewrite length_firstn, length_skipn. split; lia. }
  assert (Hf : exists fields,
             (if (byte_val x0 =? RTPS_SUBMSG_DATA) && (len body >=? 20)
              then f <- parse_data_fields body ;; Ok (Some f)
              else Ok None) = Ok fields).
  { destruct ((byte_val x0 =? RTPS_SUBMSG_DATA) && (len body >=? 20))
      eqn:E; [| now eexists].
    apply andb_prop in E. destruct E as [_ E].
    rewrite Z.geb_leb in E. apply Z.leb_le in E.
    rewrite (parse_data_fields_bytes body E). cbn. now eexists. }
  destruct Hf as (fields & ->). cbn [bind].
  eexists. split; [reflexivity |].
  unfold within_buffer. cbn [sm_offset sm_length sm_data].
  destruct Hlen as [Hl1 Hl2]. repeat split; try assumption; lia.
Qed.

Lemma parse_submessages_loop_inside (fuel : nat) :
  forall data offset,
    0 <= offset -> len data - offset <= Z.of_nat fuel ->
    exists sms,
      parse_submessages_loop fuel data offset = Ok sms
      /\ Forall (fun sm => offset <= sm_offset sm /\ within_buffer data sm)
                sms.
Proof.
  induction fuel as [| fuel IH]; intros data offset Ho Hf.
  - cbn. destruct (offset <? len data) eqn:E.
    + apply Z.ltb_lt in E. lia.
    + cbn. eauto.
  - cbn [parse_submessages_loop].
    destruct (offset <? len data) eqn:E; cbn [negb]; [| eauto].
    destruct (offset + 4 >? len data) eqn:E4; [eauto |].
    rewrite Z.gtb_ltb in E4. apply Z.ltb_ge in E4.
    destruct (parse_one_submessage_inside data offset Ho E4)
      as (sm & -> & Hoff & Hlen & Hw).
    cbn [bind].
    destruct (sm_length sm =? 0) eqn:E0.
    + eexists. split; [reflexivity |].
      constructor; [| constructor]. split; [lia | exact Hw].
    + apply Z.eqb_neq in E0.
      destruct (IH data (offset + 4 + sm_length sm)) as (rest & -> & Hrest);
        [lia | lia |].
      cbn [bind]. eexists. split; [reflexivity |].
      constructor; [split; [lia | exact Hw] |].
      eapply Forall_impl; [| exact Hrest].
      cbn. intros a [Ha Hb]. split; [lia | exact Hb].
Qed.

(** Every yielded submessage is the outcome of one turn of the loop at
    some offset. *)
Lemma parse_submessages_loop_elements (fuel : nat) :
  forall data offset sms,
    parse_submessages_loop fuel data offset = Ok sms ->
    Forall (fun sm => parse_one_submessage data (sm_offset sm) = Ok sm) sms.
Proof.
  induction fuel as [| fuel IH]; intros data offset sms.
  - cbn. destruct (negb (offset <? len data)).
    + intros H; inversion H; constructor.
    + destruct (offset + 4 >? len data); [| discriminate].
      intros H; inversion H; constructor.
  - cbn [parse_submessages_loop].
    destruct (negb (offset <? len data));
      [intros H; inversion H; constructor |].
    destruct (offset + 4 >? len data);
      [intros H; inversion H; constructor |].
    destruct (parse_one_submessage data offset) as [sm | |] eqn:E1;
      cbn [bind]; try discriminate.
    assert (Hsm : parse_one_submessage data (sm_offset sm) = Ok sm).
    { assert (sm_offset sm = offset) as ->; [| exact E1].
      unfold parse_one_submessage in E1.
      apply bind_Ok_inv in E1. destruct E1 as (i & _ & E1).
      apply bind_Ok_inv in E1. destruct E1 as (fl & _ & E1).
      apply bind_Ok_inv in E1. destruct E1 as (n & _ & E1).
      apply bind_Ok_inv in E1. destruct E1 as (fs & _ & E1).
      inversion E1. reflexivity. }
    destruct (sm_length sm =? 0).
    + intros H; inversion H. constructor; [exact Hsm | constructor].
    + destruct (parse_submessages_loop fuel data _) as [rest | |] eqn:E2;
        cbn [bind]; try discriminate.
      intros H; inversion H. constructor; [exact Hsm |].
      eapply IH. exact E2.
Qed.

Lemma parse_one_submessage_fields (data : bytes) (offset : Z)
      (sm : Submessage) :
  parse_one_submessage data offset = Ok sm ->
  (if (sm_id sm =? RTPS_SUBMSG_DATA) && (len (sm_data sm) >=? 20)
   then f <- parse_data_fields (sm_data sm) ;; Ok (Some f)
   else Ok None) = Ok (sm_fields sm).
Proof.
  unfold parse_one_submessage. intros E.
  apply bind_Ok_inv in E. destruct E as (i & _ & E).
  apply bind_Ok_inv in E. destruct E as (fl & _ & E).
  apply bind_Ok_inv in E. destruct E as (n & _ & E).
  apply bind_Ok_inv in E. destruct E as (fs & Hfs & E).
  inversion E. subst sm. cbn [sm_id sm_data sm_fields]. exact Hfs.
Qed.

Lemma parse_one_submessage_in_budget (data : bytes) (offset : Z) :
  parse_one_submessage data offset <> OutOfFuel
  /\ forall sm, parse_one_submessage data offset = Ok sm ->
                0 <= sm_length sm.
Proof.
  split.
  - unfold parse_one_submessage, parse_data_fields.
    repeat first
      [ apply bind_in_budget; [| intros ? _]
      | apply index_in_budget
      | apply unpack_le_in_budget
      | apply unpack_be_in_budget
      | discriminate
      | match goal with |- (if ?c then _ else _) <> _ => destruct c end ].
  - unfold parse_one_submessage. intros sm E.
    apply bind_Ok_inv in E. destruct E as (i & _ & E).
    apply bind_Ok_inv in E. destruct E as (fl & _ & E).
    apply bind_Ok_inv in E. destruct E as (n & Hn & E).
    apply bind_Ok_inv in E. destruct E as (fs & _ & E).
    inversion E. cbn [sm_length].
    apply unpack_le_inv in Hn. destruct Hn as [_ ->].
    apply le_value_bound.
Qed.

(** Whatever the starting offset, the loop budget of [parse_submessages]
    is not what ends the walk. *)
Lemma parse_submessages_in_budget (data : bytes) (offset : Z) :
  parse_submessages data offset <> OutOfFuel.
Proof.
  unfold parse_submessages.
  assert (H : forall fuel o, len data - o <= Z.of_nat fuel ->
                             parse_submessages_loop fuel data o <> OutOfFuel).
  { induction fuel as [| fuel IH]; intros o Hf.
    - cbn. destruct (o <? len data) eqn:E; [| discriminate].
      apply Z.ltb_lt in E. lia.
    - cbn [parse_submessages_loop].
      destruct (negb (o <? len data)); [discriminate |].
      destruct (o + 4 >? len data); [discriminate |].
      destruct (parse_one_submessage_in_budget data o) as [Hb Hlen].
      apply bind_in_budget; [exact Hb |]. intros sm Hsm.
      destruct (sm_length sm =? 0) eqn:E0; [discriminate |].
      apply Z.eqb_neq in E0. specialize (Hlen sm Hsm).
      apply bind_in_budget; [apply IH; lia | discriminate]. }
  apply H. lia.
Qed.

Lemma parse_one_submessage_as_read (data : bytes) (offset : Z)
      (sm : Submessage) :
  0 <= offset -> offset + 4 <= len data ->
  parse_one_submessage data offset = Ok sm ->
  header_as_read data sm.
Proof.
  intros Ho Hn H. unfold parse_one_submessage in H.
  destruct (index_inside data offset) as (x0 & Hx0 & E0); [lia |].
  destruct (index_inside data (offset + 1)) as (x1 & Hx1 & E1); [lia |].
  rewrite E0, E1 in H. cbn [bind] in H.
  pose proof (unpack_u16_at data (offset + 2)) as Hu.
  replace (offset + 2 + 2) with (offset + 4) in Hu by lia.
  rewrite Hu in H by lia. cbn [bind] in H.
  apply bind_Ok_inv in H. destruct H as (fs & _ & H).
  inversion H. unfold header_as_read.
  cbn [sm_id sm_flags sm_length sm_offset]. unfold octet.
  replace (Z.to_nat offset + 1)%nat with (Z.to_nat (offset + 1)) by lia.
  rewrite (nth_error_nth _ _ _ Hx0), (nth_error_nth _ _ _ Hx1).
  repeat split.
Qed.

(** The walk from a non-negative offset: every submessage as read and
    inside the buffer, and every one that is followed by another with its
    declared length inside the buffer too. *)
Lemma parse_submessages_loop_strict (fuel : nat) :
  forall data offset,
    0 <= offset -> len data - offset <= Z.of_nat fuel ->
    exists sms,
      parse_submessages_loop fuel data offset = Ok sms
      /\ Forall (fun sm => offset <= sm_offset sm
                           /\ within_buffer data sm
                           /\ header_as_read data sm) sms
      /\ Forall (declared_length_fits data) (removelast sms).
Proof.
  induction fuel as [| fuel IH]; intros data offset Ho Hf.
  - cbn. destruct (offset <? len data) eqn:E.
    + apply Z.ltb_lt in E. lia.
    + cbn. exists []. repeat split; constructor.
  - cbn [parse_submessages_loop].
    destruct (offset <? len data) eqn:E; cbn [negb].
    2:{ exists []. repeat split; constructor. }
    destruct (offset + 4 >? len data) eqn:E4.
    { exists []. repeat split; constructor. }
    rewrite Z.gtb_ltb in E4. apply Z.ltb_ge in E4.
    destruct (parse_one_submessage_inside data offset Ho E4)
      as (sm & Hsm & Hoff & Hlen & Hw).
    pose proof (parse_one_submessage_as_read data offset sm Ho E4 Hsm) as Hr.
    rewrite Hsm. cbn [bind].
    destruct (sm_length sm =? 0) eqn:E0.
    + exists [sm]. split; [reflexivity |]. split.
      * constructor; [| constructor].
        split; [lia | split; [exact Hw | exact Hr]].
      * cbn. constructor.
    + apply Z.eqb_neq in E0.
      destruct (IH data (offset + 4 + sm_length sm))
        as (rest & -> & Hrest & Hfits); [lia | lia |].
      cbn [bind]. exists (sm :: rest). split; [reflexivity |]. split.
      * constructor; [split; [lia | split; [exact Hw | exact Hr]] |].
        eapply Forall_impl; [| exact Hrest].
        cbv beta. intros a (Ha & Hb & Hc).
        split; [lia | split; [exact Hb | exact Hc]].
      * destruct rest as [| next rest']; [cbn; constructor |].
        change (removelast (sm :: next :: rest'))
          with (sm :: removelast (next :: rest')).
        constructor; [| exact Hfits].
        inversion Hrest as [| ? ? (Hn1 & Hn2 & _) _]; subst.
        destruct Hn2 as (_ & Hn2 & _).
        unfold declared_length_fits. lia.
Qed.

Example parse_sample_submessages :
  parse_submessages sample_submessages 0 = Ok [sample_info_ts; sample_data].
Proof. vm_compute. reflexivity. Qed.

(** From a negative offset Python indexes from the end of the buffer, or
    raises where the index falls before its start. *)
Example parse_from_negative_offset :
  parse_submessages overrun_buffer (-30) = Raise IndexError
  /\ parse_submessages overrun_buffer (-4) = Raise StructError.
Proof. split; vm_compute; reflexivity. Qed.

End SubmessageWalker.

(** C1, as stated, fails: on a 4-byte buffer whose header declares a
    length of 65535 the walker yields that submessage, and
    [origin_offset + 4 + declared_length] is 65539, beyond the buffer. *)
Lemma declared_length_can_overrun :
  parse_submessages overrun_buffer 0 = Ok [overrun_submessage]
  /\ ~ declared_length_fits overrun_buffer overrun_submessage.
Proof.
  split; [vm_compute; reflexivity |].
  unfold declared_length_fits. cbn. lia.
Qed.

(** C1, amended: from every non-negative starting offset the walker
    returns without raising (no read falls outside the buffer), and every
    submessage it yields starts at or after the starting offset, has its
    4-byte header wholly inside the buffer, has as kind, flags and
    declared length the bytes of that header as read (the declared length
    is the 16-bit little-endian field two bytes after the offset), and
    carries as body the bytes that follow the header, truncated to the end
    of the buffer: so [origin_offset + 4 + len(body)] never exceeds the
    buffer length.  Every submessage yielded before the last one satisfies
    [origin_offset + 4 + declared_length <= buffer length]; only the last
    one yielded can declare a length that runs past the buffer. *)
Theorem submessages_within_buffer (data : bytes) (offset : Z) :
  0 <= offset ->
  exists sms,
    parse_submessages data offset = Ok sms
    /\ Forall (fun sm => offset <= sm_offset sm
                         /\ within_buffer data sm
                         /\ header_as_read data sm) sms
    /\ Forall (declared_length_fits data) (removelast sms).
Proof.
  intros Ho. unfold parse_submessages.
  apply parse_submessages_loop_strict; [exact Ho | lia].
Qed.

Lemma submessages_within_buffer_witness :
  0 <= 0
  /\ exists sms,
      parse_submessages sample_submessages 0 = Ok sms
      /\ Forall (fun sm => 0 <= sm_offset sm
                           /\ within_buffer sample_submessages sm
                           /\ header_as_read sample_submessages sm) sms
      /\ Forall (declared_length_fits sample_submessages) (removelast sms).
Proof.
  split; [lia |]. apply (submessages_within_buffer sample_submessages 0). lia.
Defined.

(** C6: every yielded submessage whose kind is DATA and whose body has at
    least 20 bytes carries the DATA fields: extra flags from body bytes 0-1
    and octets-to-inline-QoS from bytes 2-3, little-endian; reader and
    writer entity ids from bytes 4-7 and 8-11, big-endian; the sequence
    number from bytes 12-19 as one 64-bit little-endian integer; the role
    of the writer id; and as payload the body from the
    octets-to-inline-QoS offset when that is at least 20, from offset 20
    otherwise. *)
Theorem data_fields_decoded (data : bytes) (offset : Z)
        (sms : list Submessage) (sm : Submessage) :
  parse_submessages data offset = Ok sms ->
  In sm sms ->
  sm_id sm = RTPS_SUBMSG_DATA ->
  20 <= len (sm_data sm) ->
  let body := sm_data sm in
  let qos := octet body 2 + 2 ^ 8 * octet body 3 in
  let wid := 2 ^ 24 * octet body 8 + 2 ^ 16 * octet body 9
             + 2 ^ 8 * octet body 10 + octet body 11 in
  sm_fields sm =
    Some {| extra_flags := octet body 0 + 2 ^ 8 * octet body 1;
            octets_to_inline_qos := qos;
            reader_id := 2 ^ 24 * octet body 4 + 2 ^ 16 * octet body 5
                         + 2 ^ 8 * octet body 6 + octet body 7;
            writer_id := wid;
            sequence_number :=
              octet body 12 + 2 ^ 8 * octet body 13
              + 2 ^ 16 * octet body 14 + 2 ^ 24 * octet body 15
              + 2 ^ 32 * octet body 16 + 2 ^ 40 * octet body 17
              + 2 ^ 48 * octet body 18 + 2 ^ 56 * octet body 19;
            entity_type := classify_entity_id wid;
            payload := skipn (Z.to_nat (if 20 <=? qos then qos else 20))
                             body |}.
Proof.
  intros Hp Hin Hid Hlen. cbv zeta.
  apply parse_submessages_loop_elements in Hp.
  rewrite Forall_forall in Hp. specialize (Hp sm Hin).
  apply parse_one_submessage_fields in Hp.
  rewrite Hid, Z.eqb_refl in Hp.
  assert (E : (len (sm_data sm) >=? 20) = true)
    by (rewrite Z.geb_leb; now apply Z.leb_le).
  rewrite E in Hp. cbn [andb] in Hp.
  rewrite (parse_data_fields_bytes _ Hlen) in Hp. cbv zeta in Hp.
  cbn [bind] in Hp. inversion Hp as [Hf]. reflexivity.
Qed.

Lemma data_fields_decoded_witness :
  sm_fields sample_data =
    Some (mkDataFields 0 16 0 0x3C2 1 "SEDP_PUB" [x00; x03; x00; x00]).
Proof.
  apply (data_fields_decoded sample_submessages 0
           [sample_info_ts; sample_data] sample_data).
  - vm_compute. reflexivity.
  - right. left. reflexivity.
  - reflexivity.
  - vm_compute. discriminate.
Defined.

(* ------------------------------------------------------------------ *)
(** ** CDR parameter-list decoding: properties *)

Section ParameterList.

(** The buffer being decoded. *)
Variable data : bytes.

Lemma decode_param_total (pid : Z) (value : bytes) :
  exists decoded, decode_param pid value = Ok decoded.
Proof.
  unfold decode_param.
  repeat match goal with
         | |- context [if ?c then _ else _] =>
             destruct c eqn:?; try (eexists; reflexivity)
         end.
  - rewrite Z.geb_leb in *.
    match goal with H : (12 <=? _) = true |- _ => apply Z.leb_le in H end.
    rewrite (slice_const value 0 4 0 4) by (try reflexivity; lia).
    cbn [skipn]. rewrite unpack_u32_head by lia. cbn. eauto.
  - rewrite Z.geb_leb in *.
    match goal with H : (4 <=? _) = true |- _ => apply Z.leb_le in H end.
    rewrite (slice_const value 0 4 0 4) by (try reflexivity; lia).
    cbn [skipn]. rewrite unpack_u32_head by lia. cbn. eauto.
Qed.

Lemma parse_one_parameter_value (o pid length : Z) :
  0 <= o -> 0 <= length ->
  exists decoded,
    decode_param pid (raw_value data o length) = Ok decoded
    /\ parse_one_parameter data o pid length =
         Ok (mkParam pid (pid_name pid) length (raw_value data o length)
                     o decoded).
Proof.
  intros Ho Hl. unfold parse_one_parameter.
  assert (E : (if o + 4 + length <=? len data
               then slice data (o + 4) (o + 4 + length) else [])
              = raw_value data o length).
  { unfold raw_value. destruct (o + 4 + length <=? len data); [| easy].
    rewrite slice_nonneg by lia. do 2 f_equal. lia. }
  rewrite E.
  destruct (decode_param_total pid (raw_value data o length)) as (d & Hd).
  exists d. split; [exact Hd |]. rewrite Hd. reflexivity.
Qed.

Lemma parse_cdr_loop_walk (fuel : nat) :
  forall o,
    0 <= o -> len data - o <= Z.of_nat fuel ->
    exists ps, parse_cdr_loop fuel data o = Ok ps /\ cdr_walk data o ps.
Proof.
  induction fuel as [| fuel IH]; intros o Ho Hf.
  - cbn. destruct (o + 4 <=? len data) eqn:E.
    + apply Z.leb_le in E. lia.
    + apply Z.leb_gt in E. cbn. eexists. split; [reflexivity |].
      now apply walk_end.
  - cbn [parse_cdr_loop].
    destruct (o + 4 <=? len data) eqn:E; cbn [negb].
    2:{ apply Z.leb_gt in E. eexists. split; [reflexivity |].
        now apply walk_end. }
    apply Z.leb_le in E.
    rewrite (unpack_u16_at data o) by lia. cbn [bind].
    pose proof (unpack_u16_at data (o + 2)) as Hlen.
    replace (o + 2 + 2) with (o + 4) in Hlen by lia.
    rewrite Hlen by lia. cbn [bind]. clear Hlen.
    destruct (u16_at data o =? PID_SENTINEL) eqn:Es.
    + apply Z.eqb_eq in Es. eexists. split; [reflexivity |].
      now apply walk_sentinel.
    + apply Z.eqb_neq in Es.
      pose proof (u16_at_range data (o + 2)) as Hr.
      destruct (parse_one_parameter_value o (u16_at data o)
                  (u16_at data (o + 2))) as (d & Hd & ->); [lia | lia |].
      cbn [bind].
      pose proof (pad4_bounds (u16_at data (o + 2))) as [Hp _].
      destruct (IH (o + 4 + pad4 (u16_at data (o + 2))))
        as (rest & -> & Hrest); [lia | lia |].
      cbn [bind]. eexists. split; [reflexivity |].
      apply walk_param; try assumption.
      unfold round_up4. rewrite <- pad4_round_up. exact Hrest.
Qed.

Lemma parse_cdr_parameter_list_walk :
  exists ps, parse_cdr_parameter_list data = Ok ps /\ cdr_walk data 4 ps.
Proof.
  unfold parse_cdr_parameter_list.
  destruct (len data <? 4) eqn:E.
  - apply Z.ltb_lt in E. eexists. split; [reflexivity |].
    apply walk_end. lia.
  - apply Z.ltb_ge in E.
    pose proof (unpack_u16_at data 0) as Henc.
    change (0 + 2) with 2 in Henc.
    rewrite Henc by lia. cbn [bind].
    apply parse_cdr_loop_walk; unfold len; lia.
Qed.

Lemma round_up4_bounds (n : Z) :
  n <= round_up4 n < n + 4 /\ round_up4 n mod 4 = 0.
Proof. unfold round_up4. rewrite <- pad4_round_up. apply pad4_bounds. Qed.

Lemma cdr_walk_emitted (o : Z) (ps : list Param) :
  cdr_walk data o ps ->
  Forall (fun p => o <= p_offset p /\ emitted_from data p) ps.
Proof.
  induction 1 as [| | o d ps Hb Hs pid length Hd Hw IH];
    try constructor.
  - unfold emitted_from. cbn.
    repeat split; try assumption; try reflexivity; lia.
  - eapply Forall_impl; [| exact IH]. cbv beta. intros p [Hp He].
    split; [| exact He].
    pose proof (round_up4_bounds length) as [Hr _].
    pose proof (u16_at_range data (o + 2)). subst length. lia.
Qed.

(** The walk from offset 4 is the parameters before a record position
    followed by the walk from that position. *)
Lemma cdr_walk_split (o : Z) (ps : list Param) :
  record_position data o ->
  cdr_walk data 4 ps ->
  exists pre suf,
    ps = pre ++ suf
    /\ cdr_walk data o suf
    /\ Forall (fun p => p_offset p < o) pre.
Proof.
  intros Hr Hw. induction Hr as [| o Hr IH Hb Hs].
  - exists [], ps. repeat split; [exact Hw | constructor].
  - destruct IH as (pre & suf & -> & Hsuf & Hpre).
    pose proof (round_up4_bounds (u16_at data (o + 2))) as [Hru _].
    pose proof (u16_at_range data (o + 2)) as Hrange.
    inversion Hsuf as [o' Hlt | o' _ Heq | o' d ps' _ _ pid length Hd Hw'];
      subst; [lia | contradiction |].
    exists (pre ++ [mkParam pid (pid_name pid) length
                      (raw_value data o length) o d]), ps'.
    repeat split.
    + now rewrite <- app_assoc.
    + exact Hw'.
    + apply Forall_app. split.
      * eapply Forall_impl; [| exact Hpre]. cbv beta. intros; lia.
      * constructor; [cbn [p_offset]; lia | constructor].
Qed.

Lemma u32_head_nonneg (b : bytes) : 0 <= u32_head b.
Proof.
  unfold u32_head, octet.
  pose proof (byte_val_range (nth 0 b x00)).
  pose proof (byte_val_range (nth 1 b x00)).
  pose proof (byte_val_range (nth 2 b x00)).
  pose proof (byte_val_range (nth 3 b x00)).
  lia.
Qed.

(** The decoded text of a topic or type name, by cases on the length of
    the raw value. *)
Lemma decode_string_cases (v : bytes) :
  (len v < 4 -> decode_string v = DECODE_ERROR)
  /\ (4 <= len v ->
      decode_string v =
        decode_utf8_ignore
          (firstn (Z.to_nat (u32_head v - 1)) (skipn 4 v))).
Proof.
  unfold decode_string, try_decode_string.
  rewrite slice_to_nonneg by lia. change (Z.to_nat 4) with 4%nat.
  split; intros H.
  - unfold unpack_le. rewrite length_firstn.
    destruct (Nat.eqb _ 4) eqn:E; [| reflexivity].
    apply Nat.eqb_eq in E. unfold len in H. lia.
  - rewrite unpack_u32_head by exact H. cbn [bind].
    pose proof (u32_head_nonneg v).
    rewrite slice_nonneg by lia. do 3 f_equal. lia.
Qed.

Example decode_drops_ill_formed_bytes :
  decode_utf8_ignore [x41; xff; x42; xc3; xa9; xe2; x82; x43; xc3] =
    String.append "AB" (String (chr xc3) (String (chr xa9) "C")).
Proof. vm_compute. reflexivity. Qed.

Example parse_temp_sensor :
  option_map (map p_decoded)
             (match parse_cdr_parameter_list temp_sensor_list with
              | Ok ps => Some ps
              | _ => None
              end)
  = Some [Some "TempSensor"].
Proof. vm_compute. reflexivity. Qed.

Example parse_overrun_list :
  parse_cdr_parameter_list overrun_list =
    Ok [ mkParam 0x0003 "PID_TOPIC_NAME" 8
           [x04; x00; x00; x00; x41; x42; x43; x00] 4 (Some "ABC");
         mkParam 0x001A "PID_DESTINATION_ORDER" 16 [] 16 None ].
Proof. vm_compute. reflexivity. Qed.

End ParameterList.

(** C5: on every buffer the decoder returns the parameters of the walk
    from offset 4, which reads a 16-bit little-endian id and length at
    each record, stops without emitting anything at the first record
    whose id is the sentinel 0x0001 (or where fewer than four bytes are
    left), and otherwise moves on by [4 + pad4(length)], [pad4] rounding up
    to the next multiple of four.  So no emitted parameter is the
    sentinel, and when a record position holds the sentinel every emitted
    parameter lies before it, whatever bytes follow. *)
Theorem decoding_halts_at_sentinel (data : bytes) :
  exists ps,
    parse_cdr_parameter_list data = Ok ps
    /\ cdr_walk data 4 ps
    /\ Forall (fun p => p_pid p <> PID_SENTINEL) ps
    /\ (forall o,
           record_position data o -> o + 4 <= len data ->
           u16_at data o = PID_SENTINEL ->
           Forall (fun p => p_offset p < o) ps)
    /\ (forall n, pad4 n = round_up4 n
                  /\ n <= round_up4 n < n + 4 /\ round_up4 n mod 4 = 0).
Proof.
  destruct (parse_cdr_parameter_list_walk data) as (ps & Hp & Hw).
  exists ps. repeat split; try assumption.
  - eapply Forall_impl; [| exact (cdr_walk_emitted _ _ _ Hw)].
    cbv beta. unfold emitted_from. tauto.
  - intros o Hr Hb Hs.
    destruct (cdr_walk_split data o ps Hr Hw) as (pre & suf & -> & Hsuf & Hpre).
    inversion Hsuf as [o' Hlt | o' _ Heq | o' d ps' _ Hne]; subst.
    + lia.
    + now rewrite app_nil_r.
    + contradiction.
  - apply pad4_round_up.
  - apply round_up4_bounds.
  - apply round_up4_bounds.
  - apply round_up4_bounds.
Qed.

(** C9: a non-sentinel record at a record position whose declared length
    runs past the end of the buffer is emitted, with the empty byte
    string as raw value; the decoder does not raise, and that parameter
    is the last one of the result. *)
Theorem overrunning_parameter_is_last (data : bytes) (o : Z) :
  record_position data o ->
  o + 4 <= len data ->
  u16_at data o <> PID_SENTINEL ->
  len data < o + 4 + u16_at data (o + 2) ->
  exists pre p,
    parse_cdr_parameter_list data = Ok (pre ++ [p])
    /\ p_offset p = o
    /\ p_pid p = u16_at data o
    /\ p_length p = u16_at data (o + 2)
    /\ p_value p = [].
Proof.
  intros Hr Hb Hs Hover.
  destruct (parse_cdr_parameter_list_walk data) as (ps & Hp & Hw).
  destruct (cdr_walk_split data o ps Hr Hw) as (pre & suf & -> & Hsuf & _).
  pose proof (round_up4_bounds (u16_at data (o + 2))) as [Hru _].
  inversion Hsuf as [o' Hlt | o' _ Heq | o' d ps' _ _ pid length Hd Hw'];
    subst; [lia | contradiction |].
  inversion Hw' as [o' Hlt | o' Hb' _ | o' d' ps'' Hb' _]; subst;
    try (subst length; lia).
  eexists pre, _. split; [exact Hp |]. cbn.
  repeat split. unfold raw_value.
  destruct (o + 4 + length <=? len data) eqn:E; [| reflexivity].
  apply Z.leb_le in E. subst length. lia.
Qed.

Lemma overrunning_parameter_is_last_witness :
  exists pre p,
    parse_cdr_parameter_list overrun_list = Ok (pre ++ [p])
    /\ p_offset p = 16
    /\ p_pid p = u16_at overrun_list 16
    /\ p_length p = u16_at overrun_list (16 + 2)
    /\ p_value p = [].
Proof.
  apply (overrunning_parameter_is_last overrun_list 16).
  - apply (next_record overrun_list 4).
    + apply first_record.
    + vm_compute. discriminate.
    + vm_compute. discriminate.
  - vm_compute. discriminate.
  - vm_compute. discriminate.
  - vm_compute. reflexivity.
Defined.

(** C2, as stated, fails: a topic name whose 4-byte string length says 100
    where four bytes remain is decoded to the four bytes that are there,
    not to the decode-error marker. *)
Lemma long_prefix_is_truncated :
  parse_cdr_parameter_list long_prefix_list = Ok [long_prefix_param]
  /\ len (p_value long_prefix_param) - 4 < u32_head (p_value long_prefix_param)
  /\ p_decoded long_prefix_param <> Some DECODE_ERROR.
Proof.
  split; [vm_compute; reflexivity |].
  split; [vm_compute; reflexivity | discriminate].
Qed.

(** C2, amended: the decoder never raises, and for every topic-name or
    type-name parameter it emits the decoded value is the marker
    '<decode error>' when the raw value has fewer than four bytes (the
    string length cannot be read); otherwise it is the text of the bytes
    [value[4 : 4 + str_len - 1]], undecodable bytes dropped, a slice that
    stops at the end of the value: when the length prefix exceeds the
    bytes that remain, the decoded value is the text of all of them. *)
Theorem name_decoding (data : bytes) :
  exists ps,
    parse_cdr_parameter_list data = Ok ps
    /\ forall p,
        In p ps ->
        p_pid p = 0x0003 \/ p_pid p = 0x0004 ->
        let v := p_value p in
        (len v < 4 -> p_decoded p = Some DECODE_ERROR)
        /\ (4 <= len v ->
            p_decoded p =
              Some (decode_utf8_ignore
                      (firstn (Z.to_nat (u32_head v - 1)) (skipn 4 v))))
        /\ (4 <= len v -> len v - 4 < u32_head v ->
            p_decoded p = Some (decode_utf8_ignore (skipn 4 v))).
Proof.
  destruct (parse_cdr_parameter_list_walk data) as (ps & Hp & Hw).
  exists ps. split; [exact Hp |].
  intros p Hin Hpid v.
  pose proof (cdr_walk_emitted _ _ _ Hw) as He.
  rewrite Forall_forall in He. destruct (He p Hin) as (_ & _ & _ & _ & _ & _ & Hd).
  fold v in Hd.
  assert (Hdec : p_decoded p = Some (decode_string v)).
  { destruct Hpid as [E | E]; rewrite E in Hd; cbn in Hd; now inversion Hd. }
  rewrite Hdec. destruct (decode_string_cases v) as [Hshort Hlong].
  repeat split.
  - intros H. now rewrite Hshort.
  - intros H. now rewrite Hlong.
  - intros H Hbig. rewrite Hlong by exact H. do 2 f_equal.
    apply firstn_all2. rewrite length_skipn. unfold len in *. lia.
Qed.

Lemma name_decoding_witness :
  exists ps,
    parse_cdr_parameter_list long_prefix_list = Ok ps
    /\ (In long_prefix_param ps ->
        p_decoded long_prefix_param =
          Some (decode_utf8_ignore
                  (skipn 4 (p_value long_prefix_param)))).
Proof.
  destruct (name_decoding long_prefix_list) as (ps & Hp & H).
  exists ps. split; [exact Hp |].
  intros Hin.
  destruct (H long_prefix_param Hin) as (_ & _ & Hall).
  - left. reflexivity.
  - apply Hall.
    + vm_compute. discriminate.
    + vm_compute. reflexivity.
Defined.

(* ------------------------------------------------------------------ *)
(** ** SEDP validation: properties *)

Section Validator.

Lemma found_iff (params : list Param) (pid : Z) :
  found params pid = true <-> exists p, In p params /\ p_pid p = pid.
Proof.
  unfold found. rewrite existsb_exists.
  split; intros (p & Hin & H); exists p; split; try assumption.
  - now apply Z.eqb_eq.
  - now apply Z.eqb_eq.
Qed.

(** One missing-parameter issue for each required id that no parameter
    carries, in the order of the table. *)
Lemma missing_issues_filter (required : dict string)
      (params : list Param) :
  missing_issues required params =
    map (fun kv => missing_issue (fst kv) (snd kv))
        (filter (fun kv => negb (found params (fst kv))) required).
Proof.
  unfold missing_issues.
  induction required as [| kv r IH]; [reflexivity |].
  cbn [flat_map filter]. rewrite IH.
  destruct (found params (fst kv)); reflexivity.
Qed.

Lemma missing_issues_none (required : dict string)
      (params : list Param) :
  all_found required params -> missing_issues required params = [].
Proof.
  intros H. rewrite missing_issues_filter.
  induction required as [| kv r IH]; [reflexivity |].
  cbn [filter].
  assert (Hk : found params (fst kv) = true).
  { apply found_iff. apply H. now left. }
  rewrite Hk. cbn [negb]. apply IH.
  intros pid Hin. apply H. now right.
Qed.

Lemma bad_name_false (p : Param) : good_name p -> bad_name p = false.
Proof.
  intros (s & Hs & Hne & Herr). unfold bad_name. rewrite Hs.
  apply orb_false_iff. split; now apply String.eqb_neq.
Qed.

Lemma name_issues_none (params : list Param) :
  (forall p, In p params ->
             p_pid p = 0x0003 \/ p_pid p = 0x0004 -> good_name p) ->
  name_issues params = [].
Proof.
  unfold name_issues. induction params as [| p ps IH]; intros H;
    [reflexivity |].
  cbn [flat_map]. rewrite IH by (intros q Hq; apply H; now right).
  assert (Hp : In p (p :: ps)) by now left.
  destruct (p_pid p =? 3) eqn:E3.
  - apply Z.eqb_eq in E3.
    rewrite (bad_name_false p) by (apply H; [exact Hp | now left]).
    rewrite E3. reflexivity.
  - destruct (p_pid p =? 4) eqn:E4; [| reflexivity].
    apply Z.eqb_eq in E4.
    rewrite (bad_name_false p) by (apply H; [exact Hp | now right]).
    reflexivity.
Qed.

End Validator.

(** C3, evaluated where it fails.  The PID table names 0x0011
    PID_RELIABILITY and 0x0007 PID_DURABILITY, and names 0x001A and 0x001D
    PID_DESTINATION_ORDER and PID_PRESENTATION; the required tables ask
    for 0x001A and 0x001D under the names PID_RELIABILITY and
    PID_DURABILITY.  A publication announcement that carries all five
    required parameters as the PID table numbers them is reported as
    missing two of them.  With reliability and durability numbered as
    the required tables number them, nothing is reported missing, and
    leaving out the topic name alone gives the one issue that names
    it. *)
Theorem required_ids_differ_from_pid_table :
  pids_named "PID_RELIABILITY" = [0x0011]
  /\ pids_named "PID_DURABILITY" = [0x0007]
  /\ map fst REQUIRED_SEDP_WRITER_PIDS
     = [0x005A; 0x0003; 0x0004; 0x001A; 0x001D]
  /\ map fst REQUIRED_SEDP_READER_PIDS
     = [0x005A; 0x0003; 0x0004; 0x001A; 0x001D]
  /\ parse_cdr_parameter_list pid_map_list = Ok pid_map_params
  /\ validate_sedp_packet sample_data pid_map_params =
       ( [ "Missing required PID: PID_RELIABILITY (0x001A)";
           "Missing required PID: PID_DURABILITY (0x001D)" ],
         [] )
  /\ validate_sedp_packet sample_data compliant_params = ([], [])
  /\ validate_sedp_packet sample_data params_without_topic =
       ( [ "Missing required PID: PID_TOPIC_NAME (0x0003)" ], [] ).
Proof. repeat split; vm_compute; reflexivity. Qed.

(** C8: for a DATA submessage classified SEDP_PUB or SEDP_SUB whose
    parameters carry every id of the role's required table and whose
    topic-name and type-name parameters all have a non-empty text that is
    not the decode-error marker, the validator returns no issue, the one
    zero-sequence-number warning when the sequence number is zero and no
    warning otherwise; for a submessage with any other classification, or
    none, it returns no issue and no warning. *)
Theorem compliant_announcement_validation :
  (forall submsg f params,
      sm_fields submsg = Some f ->
      (entity_type f = "SEDP_PUB"
       /\ all_found REQUIRED_SEDP_WRITER_PIDS params)
      \/ (entity_type f = "SEDP_SUB"
          /\ all_found REQUIRED_SEDP_READER_PIDS params) ->
      (forall p, In p params ->
                 p_pid p = 0x0003 \/ p_pid p = 0x0004 -> good_name p) ->
      fst (validate_sedp_packet submsg params) = []
      /\ (sequence_number f = 0 ->
          snd (validate_sedp_packet submsg params) = [SEQ_ZERO_WARNING])
      /\ (sequence_number f <> 0 ->
          snd (validate_sedp_packet submsg params) = []))
  /\ (forall submsg params,
         (forall f, sm_fields submsg = Some f ->
                    entity_type f <> "SEDP_PUB"
                    /\ entity_type f <> "SEDP_SUB") ->
         validate_sedp_packet submsg params = ([], [])).
Proof.
  split.
  - intros submsg f params Hf Hrole Hnames.
    unfold validate_sedp_packet. rewrite Hf. cbn [option_map].
    assert (Hseq : forall (issues : list string),
               let r := (issues,
                         if sequence_number f =? 0
                         then [SEQ_ZERO_WARNING] else []) in
               issues = [] ->
               fst r = []
               /\ (sequence_number f = 0 -> snd r = [SEQ_ZERO_WARNING])
               /\ (sequence_number f <> 0 -> snd r = [])).
    { intros issues r ->. subst r. cbn [fst snd]. repeat split.
      - intros ->. reflexivity.
      - intros Hne. apply Z.eqb_neq in Hne. now rewrite Hne. }
    destruct Hrole as [[-> Hall] | [-> Hall]]; cbn [String.eqb Ascii.eqb
      Bool.eqb]; apply Hseq;
      rewrite (missing_issues_none _ _ Hall), (name_issues_none _ Hnames);
      reflexivity.
  - intros submsg params H. unfold validate_sedp_packet.
    destruct (sm_fields submsg) as [f |]; [| reflexivity].
    cbn [option_map]. destruct (H f eq_refl) as [Hpub Hsub].
    apply String.eqb_neq in Hpub, Hsub. now rewrite Hpub, Hsub.
Qed.

Lemma compliant_announcement_validation_witness :
  validate_sedp_packet sample_data compliant_params = ([], [])
  /\ validate_sedp_packet sample_info_ts compliant_params = ([], []).
Proof.
  destruct compliant_announcement_validation as [Hsedp Hother].
  split.
  - destruct (Hsedp sample_data
                (mkDataFields 0 16 0 0x3C2 1 "SEDP_PUB" [x00; x03; x00; x00])
                compliant_params eq_refl) as (Hi & _ & Hw).
    + left. split; [reflexivity |].
      intros pid Hin. cbn in Hin.
      repeat (destruct Hin as [<- | Hin];
              [apply found_iff; reflexivity |]).
      contradiction.
    + intros p Hin _. cbn in Hin.
      repeat (destruct Hin as [<- | Hin];
              [eexists; split; [reflexivity | split; discriminate] |]).
      contradiction.
    + specialize (Hw ltac:(cbn; lia)).
      destruct (validate_sedp_packet sample_data compliant_params).
      cbn in Hi, Hw. now subst.
  - apply Hother. cbn. intros f Hf. discriminate Hf.
Defined.

(* ------------------------------------------------------------------ *)
(** ** Capture reading: properties *)

Section CaptureReader.

(** The byte order the capture header selects. *)
Variable endian : endianness.

Lemma read_app (n : Z) (a b : bytes) :
  Z.to_nat n = List.length a -> read n (a ++ b) = (a, b).
Proof.
  intros H. unfold read. rewrite H.
  rewrite firstn_app, skipn_app, Nat.sub_diag, firstn_all, skipn_all.
  cbn. now rewrite app_nil_r.
Qed.

Lemma read_short (n : Z) (t : bytes) :
  len t < n -> read n t = (t, []).
Proof.
  intros H. unfold read, len in *.
  rewrite firstn_all2, skipn_all2 by lia. reflexivity.
Qed.

Lemma unpack_IIII_header (h : bytes) :
  List.length h = 16%nat ->
  unpack_IIII endian h =
    Ok (header_field endian h 0, header_field endian h 1,
        header_field endian h 2, header_field endian h 3).
Proof.
  intros H. unfold unpack_IIII, header_field. rewrite H. cbn [Nat.eqb].
  rewrite (slice_const h 0 4 0 4), (slice_const h 4 8 4 4),
    (slice_const h 8 12 8 4), (slice_const h 12 16 12 4)
    by (try reflexivity; lia).
  reflexivity.
Qed.

(** The loop never raises, and its budget is enough. *)
Lemma read_packets_total (fuel : nat) :
  forall f n,
    (List.length f <= fuel)%nat ->
    exists out ps, read_packets fuel endian f n = (out, Ok ps).
Proof.
  induction fuel as [| fuel IH]; intros f n Hf.
  - destruct f; [| cbn in Hf; lia]. vm_compute. eauto.
  - cbn [read_packets]. unfold read at 1.
    destruct (len (firstn (Z.to_nat 16) f) <? 16) eqn:E; [eauto |].
    apply Z.ltb_ge in E. unfold len in E. rewrite length_firstn in E.
    rewrite unpack_IIII_header by (rewrite length_firstn; lia).
    unfold read.
    set (incl := header_field endian (firstn (Z.to_nat 16) f) 2).
    destruct (len (firstn (Z.to_nat incl) (skipn (Z.to_nat 16) f))
              <? incl); [eauto |].
    destruct (IH
                (skipn (Z.to_nat incl) (skipn (Z.to_nat 16) f)) (n + 1))
      as (out & ps & ->).
    { rewrite !length_skipn. lia. }
    cbn [bind]. eauto.
Qed.

(** The complete records at the head of the file become packets, and the
    loop goes on with what follows them. *)
Lemma read_packets_records (recs : list (bytes * bytes)) :
  forall fuel n rest,
    Forall (complete_record endian) recs ->
    (List.length recs <= fuel)%nat ->
    read_packets fuel endian (records_bytes recs ++ rest) n =
      let (out, r) := read_packets (fuel - List.length recs) endian rest
                        (n + Z.of_nat (List.length recs)) in
      (out, ps <- r ;; Ok (packets_from endian n recs ++ ps)).
Proof.
  induction recs as [| [h d] recs IH]; intros fuel n rest Hc Hf.
  - cbn [records_bytes flat_map List.length app packets_from].
    rewrite Nat.sub_0_r, Z.add_0_r.
    destruct (read_packets fuel endian rest n) as [out [ps | e |]];
      reflexivity.
  - inversion Hc as [| r rs [Hh Hd] Hrs]; subst. cbn [fst snd] in Hh, Hd.
    destruct fuel as [| fuel]; [cbn in Hf; lia |].
    cbn [records_bytes flat_map fst snd].
    fold (records_bytes recs). rewrite <- !app_assoc.
    cbn [read_packets].
    rewrite (read_app 16 h) by (rewrite Hh; reflexivity).
    assert (E16 : (len h <? 16) = false)
      by (apply Z.ltb_ge; unfold len; lia).
    rewrite E16, (unpack_IIII_header h Hh), Hd.
    rewrite (read_app (len d) d) by (unfold len; lia).
    rewrite Z.ltb_irrefl.
    rewrite (IH fuel (n + 1) rest Hrs) by (cbn in Hf; lia).
    cbn [List.length Nat.sub packets_from].
    replace (n + 1 + Z.of_nat (List.length recs))
      with (n + Z.of_nat (S (List.length recs))) by lia.
    destruct (read_packets _ endian rest _) as [out [ps | e |]];
      reflexivity.
Qed.

Lemma records_bytes_length (recs : list (bytes * bytes)) :
  Forall (complete_record endian) recs ->
  (16 * List.length recs <= List.length (records_bytes recs))%nat.
Proof.
  induction 1 as [| [h d] recs [Hh _] _ IH]; cbn [records_bytes flat_map];
    [cbn; lia |].
  fold (records_bytes recs). cbn [fst snd] in *.
  rewrite !length_app. cbn [List.length]. lia.
Qed.

(** [read_pcap] on a file with a recognised header is the loop on what
    follows the header. *)
Lemma read_pcap_header (hdr rest : bytes) :
  pcap_header endian hdr ->
  read_pcap (hdr ++ rest) =
    read_packets (List.length (hdr ++ rest)) endian rest 0.
Proof.
  intros [Hl Hm]. unfold read_pcap.
  rewrite (read_app 24 hdr) by (rewrite Hl; reflexivity).
  assert (E : (len hdr <? 24) = false)
    by (apply Z.ltb_ge; unfold len; lia).
  rewrite E, slice_to_nonneg by lia. change (Z.to_nat 4) with 4%nat.
  rewrite unpack_u32_head by (unfold len; lia).
  rewrite Hm. destruct endian; reflexivity.
Qed.

Lemma read_packets_truncated (fuel : nat) (h t : bytes) (n : Z) :
  List.length h = 16%nat ->
  len t < header_field endian h 2 ->
  read_packets (S fuel) endian (h ++ t) n =
    ([truncated_warning (n + 1)], Ok []).
Proof.
  intros Hh Ht. cbn [read_packets].
  rewrite (read_app 16 h) by (rewrite Hh; reflexivity).
  assert (E16 : (len h <? 16) = false)
    by (apply Z.ltb_ge; unfold len; lia).
  rewrite E16, (unpack_IIII_header h Hh).
  rewrite (read_short _ t Ht).
  apply Z.ltb_lt in Ht. now rewrite Ht.
Qed.

Lemma read_packets_partial (fuel : nat) (t : bytes) (n : Z) :
  len t < 16 -> read_packets fuel endian t n = ([], Ok []).
Proof.
  intros Ht.
  assert (E : (len (fst (read 16 t)) <? 16) = true).
  { rewrite (read_short 16 t Ht). now apply Z.ltb_lt. }
  destruct fuel; cbn [read_packets];
    destruct (read 16 t) as [ph f1]; cbn [fst] in E; now rewrite E.
Qed.

Lemma u32_head_firstn (file : bytes) :
  4 <= len file -> u32_head (firstn 24 file) = u32_head file.
Proof.
  intros H.
  do 4 (expose_byte file H).
  reflexivity.
Qed.

Example packets_of_sample_record :
  packets_from LittleEndian 0 [sample_record] = [sample_packet].
Proof. vm_compute. reflexivity. Qed.

End CaptureReader.

(** C4: [read_pcap] raises (a ValueError) exactly when the file has fewer
    than the 24 bytes of the global header or its first four bytes, read
    little-endian, are neither 0xa1b2c3d4 nor 0xd4c3b2a1, and returns a
    list of packets in every other case; and when, after complete records,
    a record header declares more frame bytes than are left in the file,
    it raises nothing, prints the one truncation warning with the number
    of that packet, stops, and returns the packets of the complete
    records. *)
Theorem capture_reader_errors :
  (forall file,
      len file < 24
      \/ (u32_head file <> 0xa1b2c3d4 /\ u32_head file <> 0xd4c3b2a1) ->
      exists msg, read_pcap file = ([], Raise (ValueError msg)))
  /\ (forall file,
         24 <= len file ->
         u32_head file = 0xa1b2c3d4 \/ u32_head file = 0xd4c3b2a1 ->
         exists out ps, read_pcap file = (out, Ok ps))
  /\ (forall endian hdr recs h t,
         pcap_header endian hdr ->
         Forall (complete_record endian) recs ->
         List.length h = 16%nat ->
         len t < header_field endian h 2 ->
         read_pcap (hdr ++ records_bytes recs ++ h ++ t) =
           ([truncated_warning (Z.of_nat (List.length recs) + 1)],
            Ok (packets_from endian 0 recs))).
Proof.
  split; [| split].
  - intros file H. unfold read_pcap, read.
    change (Z.to_nat 24) with 24%nat.
    destruct (len (firstn 24 file) <? 24) eqn:E; [eauto |].
    apply Z.ltb_ge in E. unfold len in E. rewrite length_firstn in E.
    destruct H as [H | [Hle Hbe]]; [unfold len in H; lia |].
    rewrite slice_to_nonneg by lia. change (Z.to_nat 4) with 4%nat.
    rewrite unpack_u32_head by (unfold len; rewrite length_firstn; lia).
    rewrite u32_head_firstn by (unfold len; lia).
    apply Z.eqb_neq in Hle, Hbe. rewrite Hle, Hbe. eauto.
  - intros file Hlen Hmagic.
    rewrite <- (firstn_skipn 24 file).
    assert (Hh : exists endian, pcap_header endian (firstn 24 file)).
    { destruct Hmagic as [Hm | Hm];
        [exists LittleEndian | exists BigEndian];
        (split; [rewrite length_firstn; unfold len in Hlen; lia |]);
        rewrite u32_head_firstn by lia; exact Hm. }
    destruct Hh as (endian & Hh).
    rewrite (read_pcap_header endian _ _ Hh).
    apply read_packets_total. rewrite length_app. lia.
  - intros endian hdr recs h t Hh Hrecs Hl Ht.
    rewrite (read_pcap_header endian _ _ Hh).
    pose proof (records_bytes_length endian recs Hrecs) as Hn.
    destruct Hh as [Hhl _].
    rewrite read_packets_records; [| exact Hrecs |].
    2:{ rewrite !length_app. lia. }
    remember (List.length (hdr ++ records_bytes recs ++ h ++ t)
              - List.length recs)%nat as fuel eqn:Hfuel.
    destruct fuel as [| fuel].
    { rewrite !length_app in Hfuel. lia. }
    rewrite (read_packets_truncated endian fuel h t _ Hl Ht).
    cbn [bind]. now rewrite app_nil_r, Z.add_0_l.
Qed.

Lemma capture_reader_errors_witness :
  read_pcap (sample_header ++ records_bytes [sample_record]
             ++ sample_record_header ++ [xaa; xbb]) =
    ([truncated_warning (Z.of_nat (List.length [sample_record]) + 1)],
     Ok (packets_from LittleEndian 0 [sample_record])).
Proof.
  destruct capture_reader_errors as (_ & _ & H).
  apply (H LittleEndian sample_header [sample_record]
           sample_record_header [xaa; xbb]).
  - split; reflexivity.
  - constructor; [split; reflexivity | constructor].
  - reflexivity.
  - vm_compute. reflexivity.
Defined.

(** C10: when, after complete records, between 1 and 15 bytes are left
    where a 16-byte record header is expected, [read_pcap] stops without
    printing anything and without raising, and returns the packets of the
    complete records. *)
Theorem partial_record_header_is_silent
        (endian : endianness) (hdr : bytes) (recs : list (bytes * bytes))
        (t : bytes) :
  pcap_header endian hdr ->
  Forall (complete_record endian) recs ->
  1 <= len t <= 15 ->
  read_pcap (hdr ++ records_bytes recs ++ t) =
    ([], Ok (packets_from endian 0 recs)).
Proof.
  intros Hh Hrecs Ht.
  rewrite (read_pcap_header endian _ _ Hh).
  pose proof (records_bytes_length endian recs Hrecs) as Hn.
  rewrite read_packets_records; [| exact Hrecs |].
  2:{ rewrite !length_app. lia. }
  rewrite read_packets_partial by lia.
  cbn [bind]. now rewrite app_nil_r.
Qed.

Lemma partial_record_header_is_silent_witness :
  read_pcap (sample_header ++ records_bytes [sample_record]
             ++ [x01; x00; x00]) =
    ([], Ok (packets_from LittleEndian 0 [sample_record])).
Proof.
  apply (partial_record_header_is_silent LittleEndian sample_header
           [sample_record] [x01; x00; x00]).
  - split; reflexivity.
  - constructor; [split; reflexivity | constructor].
  - vm_compute. split; discriminate.
Defined.


(* ------------------------------------------------------------------ *)
(** ** Decapsulation: properties *)

Section Decapsulation.

Lemma index_octet (b : bytes) (i : Z) (k : nat) :
  Z.to_nat i = k -> 0 <= i < len b -> index b i = Ok (octet b k).
Proof.
  intros <- H.
  destruct (index_inside b i H) as (x & Hx & ->).
  unfold octet. now rewrite (nth_error_nth _ _ _ Hx).
Qed.

Lemma unpack_u16be_at (b : bytes) (o : nat) :
  (o + 2 <= List.length b)%nat ->
  unpack_be 2 (firstn 2 (skipn o b)) = Ok (u16be_at b o).
Proof.
  intros H.
  rewrite (skipn_cons_nth b o) by lia.
  rewrite (skipn_cons_nth b (S o)) by lia.
  cbn [firstn unpack_be List.length Nat.eqb be_value fold_left].
  unfold u16be_at, octet. rewrite Nat.add_1_r. f_equal. lia.
Qed.

Lemma octet_skipn (b : bytes) (n k : nat) :
  octet (skipn n b) k = octet b (n + k).
Proof. unfold octet. now rewrite nth_skipn. Qed.

Lemma octet_range (b : bytes) (k : nat) : 0 <= octet b k < 256.
Proof. apply byte_val_range. Qed.

Lemma hex_length (b : bytes) :
  String.length (hex b) = (2 * List.length b)%nat.
Proof.
  induction b as [| x b IH]; [reflexivity |].
  cbn [hex String.length List.length]. rewrite IH. lia.
Qed.

Lemma bytes_eqb_eq (a b : bytes) : bytes_eqb a b = true <-> a = b.
Proof.
  revert b. induction a as [| x a IH]; intros [| y b]; cbn;
    try (split; [discriminate | discriminate]); [tauto |].
  rewrite andb_true_iff, IH. split.
  - intros [Hxy ->]. apply Byte.byte_dec_bl in Hxy. now subst.
  - intros H. inversion H. split; [now apply Byte.byte_dec_lb | reflexivity].
Qed.

Lemma parse_ethernet_total (data : bytes) :
  exists r, parse_ethernet data = Ok r.
Proof.
  unfold parse_ethernet.
  destruct (len data <? 14) eqn:E; [eauto |].
  apply Z.ltb_ge in E.
  rewrite (slice_const data 12 14 12 2) by (try reflexivity; lia).
  rewrite unpack_u16be_at by (unfold len in E; lia). cbn [bind].
  destruct (negb _); eauto.
Qed.

Lemma parse_ip_total (data : bytes) : exists r, parse_ip data = Ok r.
Proof.
  unfold parse_ip.
  destruct (len data <? 20) eqn:E20; [eauto |].
  apply Z.ltb_ge in E20.
  rewrite (index_octet data 0 0), (index_octet data 9 9)
    by (try reflexivity; lia).
  cbn [bind].
  destruct (negb _); [eauto |]. destruct (negb _); [eauto |].
  destruct (len (slice_from data _) <? 8) eqn:E8; [eauto |].
  apply Z.ltb_ge in E8. unfold len in E8.
  rewrite (slice_const _ 0 2 0 2), (slice_const _ 2 4 2 2),
    (slice_const _ 4 6 4 2) by (try reflexivity; lia).
  rewrite !unpack_u16be_at by lia. cbn [bind]. eauto.
Qed.

Lemma parse_rtps_header_total (data : bytes) :
  exists r, parse_rtps_header data = Ok r
            /\ forall h, r = Some h -> submessages_offset h = 20.
Proof.
  unfold parse_rtps_header.
  destruct (len data <? 20) eqn:E20.
  { exists None. split; [reflexivity | discriminate]. }
  apply Z.ltb_ge in E20.
  destruct (negb _).
  { exists None. split; [reflexivity | discriminate]. }
  rewrite (index_octet data 4 4), (index_octet data 5 5)
    by (try reflexivity; lia).
  cbn [bind].
  rewrite (slice_const data 6 8 6 2) by (try reflexivity; lia).
  rewrite unpack_u16be_at by (unfold len in E20; lia). cbn [bind].
  eexists. split; [reflexivity |].
  intros h Hh. inversion Hh. reflexivity.
Qed.

End Decapsulation.

(** X1: a frame shorter than the 14-byte Ethernet header is not
    applicable; a frame made of two 6-byte addresses, a 2-byte EtherType
    and a payload gives back exactly that payload when the EtherType,
    read big-endian, is 0x0800, and is not applicable otherwise.
    [parse_ethernet] raises in neither case. *)
Theorem parse_ethernet_frame :
  (forall data, len data < 14 -> parse_ethernet data = Ok None)
  /\ (forall dst src ethertype ip_pkt,
         List.length dst = 6%nat -> List.length src = 6%nat ->
         List.length ethertype = 2%nat ->
         parse_ethernet (dst ++ src ++ ethertype ++ ip_pkt) =
           Ok (if be_value ethertype =? 0x0800 then Some ip_pkt else None)).
Proof.
  split.
  - intros data H. unfold parse_ethernet.
    apply Z.ltb_lt in H. now rewrite H.
  - intros dst src et ip Hd Hs He.
    do 6 (destruct dst as [| ? dst]; [discriminate Hd |]).
    destruct dst; [| discriminate Hd].
    do 6 (destruct src as [| ? src]; [discriminate Hs |]).
    destruct src; [| discriminate Hs].
    do 2 (destruct et as [| ? et]; [discriminate He |]).
    destruct et; [| discriminate He].
    unfold parse_ethernet.
    assert (Hlen : (len ([b; b0; b1; b2; b3; b4] ++ [b5; b6; b7; b8; b9; b10]
                         ++ [b11; b12] ++ ip) <? 14) = false).
    { apply Z.ltb_ge. unfold len. cbn [app List.length]. lia. }
    rewrite Hlen.
    rewrite (slice_const _ 12 14 12 2) by (try reflexivity; lia).
    rewrite slice_from_nonneg by lia.
    change (Z.to_nat 14) with 14%nat.
    cbn [app firstn skipn unpack_be List.length Nat.eqb bind].
    destruct (be_value [b11; b12] =? 2048); reflexivity.
Qed.

Lemma parse_ethernet_frame_witness :
  parse_ethernet (repeat x00 6 ++ repeat x01 6 ++ [x08; x00] ++ [x45; x00]) =
    Ok (if be_value [x08; x00] =? 0x0800 then Some [x45; x00] else None).
Proof.
  destruct parse_ethernet_frame as [_ H].
  apply (H (repeat x00 6) (repeat x01 6) [x08; x00] [x45; x00]);
    reflexivity.
Defined.

(** X2: [parse_ip] never raises.  It returns a datagram exactly when the
    packet has at least 20 bytes, its version nibble is 4, its protocol
    byte is 17 and at least 8 bytes follow the header length the IHL
    nibble gives (a header length below 20 is not refused).  The ports are
    the big-endian 16-bit fields at the header length and two bytes
    further, the payload is everything after the 8-byte UDP header, and
    the addresses are the dotted bytes 12-15 and 16-19. *)
Theorem parse_ip_datagram (data : bytes) :
  exists r,
    parse_ip data = Ok r
    /\ (r <> None <-> udp_over_ipv4 data)
    /\ forall udp,
        r = Some udp ->
        let ihl := Z.to_nat (ip_header_length data) in
        src_port udp = u16be_at data ihl
        /\ dst_port udp = u16be_at data (ihl + 2)
        /\ udp_payload udp = skipn (ihl + 8) data
        /\ src_ip udp = dotted (firstn 4 (skipn 12 data))
        /\ dst_ip udp = dotted (firstn 4 (skipn 16 data)).
Proof.
  unfold parse_ip, udp_over_ipv4, ip_version, ip_header_length.
  destruct (len data <? 20) eqn:E20.
  { apply Z.ltb_lt in E20. exists None. split; [reflexivity |].
    split; [split; [congruence | lia] | discriminate]. }
  apply Z.ltb_ge in E20.
  assert (Hn : (20 <= List.length data)%nat) by (unfold len in E20; lia).
  rewrite (index_octet data 0 0), (index_octet data 9 9)
    by (try reflexivity; lia).
  cbn [bind].
  pose proof (octet_range data 0) as R0.
  rewrite Z.shiftr_div_pow2 by lia. change (2 ^ 4) with 16.
  change 15 with (Z.ones 4). rewrite Z.land_ones by lia.
  change (2 ^ 4) with 16.
  destruct (octet data 0 / 16 =? 4) eqn:Ev; cbn [negb].
  2:{ apply Z.eqb_neq in Ev. exists None. split; [reflexivity |].
      split; [split; [congruence | tauto] | discriminate]. }
  apply Z.eqb_eq in Ev.
  destruct (octet data 9 =? 17) eqn:Ep; cbn [negb].
  2:{ apply Z.eqb_neq in Ep. exists None. split; [reflexivity |].
      split; [split; [congruence | tauto] | discriminate]. }
  apply Z.eqb_eq in Ep.
  pose proof (Z.mod_pos_bound (octet data 0) 16 ltac:(lia)) as Rm.
  set (ihl := octet data 0 mod 16 * 4) in *.
  replace (4 * (octet data 0 mod 16)) with ihl by (subst ihl; lia).
  rewrite (slice_from_nonneg data ihl) by (subst ihl; lia).
  assert (Hlen : len (skipn (Z.to_nat ihl) data) = Z.max 0 (len data - ihl)).
  { unfold len. rewrite length_skipn. subst ihl. lia. }
  destruct (len (skipn (Z.to_nat ihl) data) <? 8) eqn:E8.
  { apply Z.ltb_lt in E8. exists None. split; [reflexivity |].
    split; [split; [congruence | lia] | discriminate]. }
  apply Z.ltb_ge in E8.
  assert (Hu : (8 <= List.length (skipn (Z.to_nat ihl) data))%nat)
    by (unfold len in E8; lia).
  rewrite (slice_const _ 0 2 0 2), (slice_const _ 2 4 2 2),
    (slice_const _ 4 6 4 2) by (try reflexivity; lia).
  rewrite !unpack_u16be_at by lia. cbn [bind].
  eexists. split; [reflexivity |].
  split; [split; [intros _; repeat split; lia | discriminate] |].
  intros udp Hudp. inversion Hudp; subst udp. cbn [src_port dst_port
    udp_payload src_ip dst_ip]. cbv zeta.
  unfold u16be_at. rewrite !octet_skipn.
  rewrite slice_from_nonneg by lia. change (Z.to_nat 8) with 8%nat.
  rewrite skipn_skipn.
  rewrite (slice_const data 12 16 12 4), (slice_const data 16 20 16 4)
    by (try reflexivity; lia).
  rewrite !Nat.add_0_r, <- !Nat.add_assoc.
  rewrite (Nat.add_comm 8). repeat split.
Qed.

(** X3: [parse_rtps_header] never raises.  It returns a header exactly
    when the payload has at least 20 bytes and starts with the four bytes
    of RTPS; the header then places the submessages at offset 20, carries
    bytes 6-7 as big-endian vendor id, bytes 4 and 5 as version, and the
    12 bytes from offset 8 as a GUID prefix of 24 hexadecimal digits. *)
Theorem parse_rtps_header_magic (data : bytes) :
  exists r,
    parse_rtps_header data = Ok r
    /\ (r <> None <-> 20 <= len data /\ firstn 4 data = RTPS_MAGIC)
    /\ forall h,
        r = Some h ->
        submessages_offset h = 20
        /\ vendor_id h = u16be_at data 6
        /\ protocol_version h =
             String.append (str_of_int (octet data 4))
               (String.append "." (str_of_int (octet data 5)))
        /\ guid_prefix h = hex (firstn 12 (skipn 8 data))
        /\ String.length (guid_prefix h) = 24%nat.
Proof.
  unfold parse_rtps_header.
  destruct (len data <? 20) eqn:E20.
  { apply Z.ltb_lt in E20. exists None. split; [reflexivity |].
    split; [split; [congruence | lia] | discriminate]. }
  apply Z.ltb_ge in E20.
  assert (Hn : (20 <= List.length data)%nat) by (unfold len in E20; lia).
  rewrite (slice_const data 0 4 0 4), (slice_const data 6 8 6 2),
    (slice_const data 8 20 8 12) by (try reflexivity; lia).
  change (skipn 0 data) with data.
  destruct (bytes_eqb (firstn 4 data) RTPS_MAGIC) eqn:Em; cbn [negb].
  2:{ exists None. split; [reflexivity |].
      split; [split; [congruence |] | discriminate].
      intros [_ H]. apply bytes_eqb_eq in H. congruence. }
  apply bytes_eqb_eq in Em.
  rewrite (index_octet data 4 4), (index_octet data 5 5)
    by (try reflexivity; lia).
  cbn [bind].
  rewrite unpack_u16be_at by lia. cbn [bind].
  match goal with |- exists r, Ok ?x = Ok r /\ _ => exists x end.
  split; [reflexivity |].
  split; [split; [intros _; now split | discriminate] |].
  intros h Hh.
  match type of Hh with
  | Some ?x = Some _ => assert (Eh : h = x) by congruence
  end.
  subst h. clear Hh.
  cbv [submessages_offset vendor_id protocol_version guid_prefix].
  do 4 (split; [reflexivity |]).
  rewrite hex_length, length_firstn, length_skipn. lia.
Qed.

(* ------------------------------------------------------------------ *)
(** ** Submessage walking and classification: further properties *)

Section WalkerStructure.

Variable data : bytes.

Lemma parse_one_submessage_header (o : Z) (sm : Submessage) :
  parse_one_submessage data o = Ok sm ->
  sm_offset sm = o /\ 0 <= sm_length sm < 65536.
Proof.
  unfold parse_one_submessage. intros E.
  apply bind_Ok_inv in E. destruct E as (i & _ & E).
  apply bind_Ok_inv in E. destruct E as (fl & _ & E).
  apply bind_Ok_inv in E. destruct E as (n & Hn & E).
  apply bind_Ok_inv in E. destruct E as (fs & _ & E).
  inversion E. cbn [sm_offset sm_length]. split; [reflexivity |].
  apply unpack_le_inv in Hn. destruct Hn as [Hl ->].
  pose proof (le_value_bound (slice data (o + 2) (o + 4))) as Hb.
  rewrite Hl in Hb. exact Hb.
Qed.

(** What one turn of the loop gives, by cases. *)
Lemma parse_submessages_loop_cases (fuel : nat) (o : Z)
      (sms : list Submessage) :
  parse_submessages_loop fuel data o = Ok sms ->
  (sms = [] /\ len data < o + 4)
  \/ (exists sm, sms = [sm] /\ parse_one_submessage data o = Ok sm
                  /\ sm_length sm = 0)
  \/ (exists fuel' sm rest,
         fuel = S fuel' /\ sms = sm :: rest
         /\ parse_one_submessage data o = Ok sm
         /\ sm_length sm <> 0
         /\ parse_submessages_loop fuel' data (o + 4 + sm_length sm)
            = Ok rest).
Proof.
  intros H.
  assert (Hstop : negb (o <? len data) = true \/ (o + 4 >? len data) = true
                  -> len data < o + 4).
  { intros [E | E].
    - apply negb_true_iff, Z.ltb_ge in E. lia.
    - rewrite Z.gtb_ltb in E. apply Z.ltb_lt in E. lia. }
  destruct fuel as [| fuel]; cbn [parse_submessages_loop] in H.
  - destruct (negb (o <? len data)) eqn:E1.
    + inversion H. left. split; [reflexivity | auto].
    + destruct (o + 4 >? len data) eqn:E2; [| discriminate].
      inversion H. left. split; [reflexivity | auto].
  - destruct (negb (o <? len data)) eqn:E1.
    { inversion H. left. split; [reflexivity | auto]. }
    destruct (o + 4 >? len data) eqn:E2.
    { inversion H. left. split; [reflexivity | auto]. }
    apply bind_Ok_inv in H. destruct H as (sm & Hsm & H).
    destruct (sm_length sm =? 0) eqn:E0.
    + apply Z.eqb_eq in E0. inversion H. right. left. eauto.
    + apply Z.eqb_neq in E0.
      apply bind_Ok_inv in H. destruct H as (rest & Hrest & H).
      inversion H. right. right. exists fuel, sm, rest. auto.
Qed.

Lemma parse_submessages_loop_advances (fuel : nat) :
  forall o sms,
    parse_submessages_loop fuel data o = Ok sms -> advances o sms.
Proof.
  induction fuel as [| fuel IH]; intros o sms H;
    destruct (parse_submessages_loop_cases _ _ _ H)
      as [[-> _] | [(sm & -> & Hsm & H0) | (f & sm & rest & Hf & -> & Hsm
                                            & Hne & Hrest)]];
    try exact I; try discriminate Hf.
  - destruct (parse_one_submessage_header _ _ Hsm) as [Ho Hr].
    cbn. repeat split; try assumption; lia.
  - destruct (parse_one_submessage_header _ _ Hsm) as [Ho Hr].
    cbn. repeat split; try assumption; lia.
  - inversion Hf; subst f.
    destruct (parse_one_submessage_header _ _ Hsm) as [Ho Hr].
    cbn [advances]. repeat split; try assumption; try lia.
    apply IH. exact Hrest.
Qed.

Lemma parse_submessages_loop_complete (fuel : nat) :
  forall o sms,
    parse_submessages_loop fuel data o = Ok sms ->
    (exists pre last, sms = pre ++ [last] /\ sm_length last = 0)
    \/ len data < walk_end_offset o sms + 4.
Proof.
  induction fuel as [| fuel IH]; intros o sms H;
    destruct (parse_submessages_loop_cases _ _ _ H)
      as [[-> Hend] | [(sm & -> & Hsm & H0) | (f & sm & rest & Hf & -> & Hsm
                                               & Hne & Hrest)]];
    try discriminate Hf.
  - right. exact Hend.
  - left. exists [], sm. auto.
  - right. exact Hend.
  - left. exists [], sm. auto.
  - inversion Hf; subst f.
    destruct (parse_one_submessage_header _ _ Hsm) as [Ho Hr].
    destruct (IH _ _ Hrest) as [(pre & last & -> & Hl) | Hend].
    + left. exists (sm :: pre), last. auto.
    + right. cbn [walk_end_offset]. now rewrite Ho.
Qed.

End WalkerStructure.

(** X4: the submessages the walker yields follow one another: the first
    starts at the starting offset, each next one starts [4 + declared
    length] bytes after the one before, every declared length is a 16-bit
    value, and a submessage of declared length 0 is the last one
    yielded. *)
Theorem walker_advances (data : bytes) (offset : Z)
        (sms : list Submessage) :
  parse_submessages data offset = Ok sms -> advances offset sms.
Proof. apply parse_submessages_loop_advances. Qed.

Lemma walker_advances_witness : advances 0 [sample_info_ts; sample_data].
Proof.
  apply (walker_advances sample_submessages 0). vm_compute. reflexivity.
Defined.

(** X5: the walker does not stop early: when it returns, either the last
    submessage it yielded has declared length 0, or fewer than four bytes
    are left at the offset after the last submessage (at the starting
    offset when it yielded none). *)
Theorem walker_stops_only_at_end (data : bytes) (offset : Z)
        (sms : list Submessage) :
  parse_submessages data offset = Ok sms ->
  (exists pre last, sms = pre ++ [last] /\ sm_length last = 0)
  \/ len data < walk_end_offset offset sms + 4.
Proof. apply parse_submessages_loop_complete. Qed.

Lemma walker_stops_only_at_end_witness :
  (exists pre last,
      [sample_info_ts; sample_data] = pre ++ [last] /\ sm_length last = 0)
  \/ len sample_submessages
     < walk_end_offset 0 [sample_info_ts; sample_data] + 4.
Proof.
  apply (walker_stops_only_at_end sample_submessages 0).
  vm_compute. reflexivity.
Defined.

(** X6: a yielded submessage carries the DATA fields (and with them a
    role) exactly when its kind is DATA and its body has at least 20
    bytes; the role is then the classification of its writer id.  Any
    other submessage is outside the validator's scope: it gets no issue
    and no warning, whatever the parameters. *)
Theorem role_only_for_data (data : bytes) (offset : Z)
        (sms : list Submessage) (sm : Submessage) :
  parse_submessages data offset = Ok sms ->
  In sm sms ->
  (sm_fields sm <> None <->
   sm_id sm = RTPS_SUBMSG_DATA /\ 20 <= len (sm_data sm))
  /\ (forall f, sm_fields sm = Some f ->
                entity_type f = classify_entity_id (writer_id f))
  /\ (sm_fields sm = None ->
      forall params, validate_sedp_packet sm params = ([], [])).
Proof.
  intros Hp Hin.
  apply parse_submessages_loop_elements in Hp.
  rewrite Forall_forall in Hp. specialize (Hp sm Hin).
  apply parse_one_submessage_fields in Hp.
  split; [| split].
  - destruct (sm_id sm =? RTPS_SUBMSG_DATA) eqn:Eid.
    + apply Z.eqb_eq in Eid.
      destruct (len (sm_data sm) >=? 20) eqn:El; cbn [andb] in Hp.
      * rewrite Z.geb_leb in El. apply Z.leb_le in El.
        rewrite (parse_data_fields_bytes _ El) in Hp. cbv zeta in Hp.
        cbn [bind] in Hp. inversion Hp as [Hf].
        split; [intros _; now split | discriminate].
      * rewrite Z.geb_leb in El. apply Z.leb_gt in El.
        inversion Hp as [Hf]. split; [congruence | lia].
    + apply Z.eqb_neq in Eid. cbn [andb] in Hp. inversion Hp as [Hf].
      split; [congruence | tauto].
  - intros f Hf.
    destruct ((sm_id sm =? RTPS_SUBMSG_DATA) && (len (sm_data sm) >=? 20))
      eqn:E; [| rewrite Hf in Hp; discriminate Hp].
    apply andb_prop in E. destruct E as [_ El].
    rewrite Z.geb_leb in El. apply Z.leb_le in El.
    rewrite (parse_data_fields_bytes _ El) in Hp. cbv zeta in Hp.
    cbn [bind] in Hp. rewrite Hf in Hp.
    inversion Hp as [Hf']. reflexivity.
  - intros Hnone params. unfold validate_sedp_packet.
    now rewrite Hnone.
Qed.

Lemma role_only_for_data_witness :
  (sm_fields sample_info_ts <> None <->
   sm_id sample_info_ts = RTPS_SUBMSG_DATA
   /\ 20 <= len (sm_data sample_info_ts))
  /\ (forall f, sm_fields sample_info_ts = Some f ->
                entity_type f = classify_entity_id (writer_id f))
  /\ (sm_fields sample_info_ts = None ->
      forall params, validate_sedp_packet sample_info_ts params = ([], [])).
Proof.
  apply (role_only_for_data sample_submessages 0
           [sample_info_ts; sample_data] sample_info_ts).
  - vm_compute. reflexivity.
  - left. reflexivity.
Defined.

(** X7: the ids of each role.  [classify_entity_id] answers SPDP for the
    two SPDP participant endpoints, SEDP_PUB for the publications writer
    and reader, SEDP_SUB for the subscriptions writer and reader, BUILTIN
    for ENTITYID_UNKNOWN and the two topic endpoints, and for no other
    id. *)
Theorem classify_entity_id_table (entity_id : Z) :
  (classify_entity_id entity_id = "SPDP" <->
   entity_id = 0x000100C2 \/ entity_id = 0x000001C1)
  /\ (classify_entity_id entity_id = "SEDP_PUB" <->
      entity_id = 0x000003C2 \/ entity_id = 0x000004C2)
  /\ (classify_entity_id entity_id = "SEDP_SUB" <->
      entity_id = 0x000003C7 \/ entity_id = 0x000004C7)
  /\ (classify_entity_id entity_id = "BUILTIN" <->
      entity_id = 0x000000C0 \/ entity_id = 0x000200C2
      \/ entity_id = 0x000201C2).
Proof.
  unfold classify_entity_id, ENTITY_IDS. cbn [dict_get].
  repeat match goal with
         | |- context [entity_id =? ?k] =>
             let E := fresh "E" in
             destruct (entity_id =? k) eqn:E;
             [ apply Z.eqb_eq in E; subst entity_id; vm_compute;
               repeat split; intros H;
               first [ discriminate H | reflexivity | tauto
                     | (destruct H as [H | H]; discriminate H)
                     | (destruct H as [H | [H | H]]; discriminate H) ]
             | apply Z.eqb_neq in E ]
         end.
  repeat split; intros H; first [discriminate H | exfalso; lia].
Qed.

(* ------------------------------------------------------------------ *)
(** ** CDR parameter-list decoding: further properties *)

Section ParameterListStructure.

Lemma cdr_walk_functional (data : bytes) (o : Z) (ps : list Param) :
  cdr_walk data o ps -> forall ps', cdr_walk data o ps' -> ps = ps'.
Proof.
  induction 1 as [o Hlt | o Hb Hs | o d ps Hb Hs pid length Hd Hw IH];
    intros ps' H';
    inversion H' as [o' Hlt' | o' Hb' Hs' | o' d' ps'' Hb' Hs' pid' length'
                                            Hd' Hw'];
    subst; try reflexivity; try lia; try contradiction.
  subst pid' length'. fold pid in Hd'. fold length in Hd', Hw'.
  rewrite Hd in Hd'. inversion Hd'. f_equal. apply IH. exact Hw'.
Qed.

Lemma cdr_walk_aligned (data : bytes) (o : Z) (ps : list Param) :
  cdr_walk data o ps -> o mod 4 = 0 ->
  Forall (fun p => p_offset p mod 4 = 0) ps.
Proof.
  induction 1 as [| | o d ps Hb Hs pid length Hd Hw IH]; intros Ho;
    constructor; [exact Ho |].
  apply IH.
  pose proof (round_up4_bounds length) as [_ Hm].
  rewrite Z.add_mod, (Z.add_mod o 4), Ho, Hm by lia. reflexivity.
Qed.

Lemma cdr_walk_sorted (data : bytes) (o : Z) (ps : list Param) :
  cdr_walk data o ps -> StronglySorted record_before ps.
Proof.
  induction 1 as [| | o d ps Hb Hs pid length Hd Hw IH]; constructor;
    [exact IH |].
  eapply Forall_impl; [| exact (cdr_walk_emitted _ _ _ Hw)].
  cbv beta. intros q [Hq _]. unfold record_before. cbn [p_offset p_length].
  pose proof (round_up4_bounds length) as [Hr _]. lia.
Qed.

Lemma cdr_end_ge (data : bytes) (o : Z) (ps : list Param) :
  cdr_walk data o ps -> o <= cdr_end o ps.
Proof.
  induction 1 as [| | o d ps Hb Hs pid length Hd Hw IH]; cbn [cdr_end];
    try lia.
  cbn [p_offset p_length].
  pose proof (round_up4_bounds length) as [Hr _].
  pose proof (u16_at_range data (o + 2)). subst length. lia.
Qed.

Lemma octet_app_l (a b : bytes) (k : nat) :
  (k < List.length a)%nat -> octet (a ++ b) k = octet a k.
Proof. intros H. unfold octet. now rewrite app_nth1. Qed.

Lemma u16_at_app (data extra : bytes) (o : Z) :
  0 <= o -> o + 2 <= len data ->
  u16_at (data ++ extra) o = u16_at data o.
Proof.
  intros Ho Hl. unfold u16_at, len in *.
  rewrite !octet_app_l by lia. reflexivity.
Qed.

Lemma raw_value_app (data extra : bytes) (o length : Z) :
  0 <= o -> 0 <= length -> o + 4 + length <= len data ->
  raw_value (data ++ extra) o length = raw_value data o length.
Proof.
  intros Ho Hl Hfit. unfold raw_value.
  assert (E : (o + 4 + length <=? len data) = true) by now apply Z.leb_le.
  assert (E' : (o + 4 + length <=? len (data ++ extra)) = true).
  { apply Z.leb_le. unfold len in *. rewrite length_app. lia. }
  rewrite E, E'. unfold len in Hfit.
  rewrite skipn_app, firstn_app, length_skipn.
  replace (Z.to_nat length - (List.length data - Z.to_nat (o + 4)))%nat
    with 0%nat by lia.
  cbn [firstn]. now rewrite app_nil_r.
Qed.

(** A walk that ends with four bytes to spare ends at a sentinel, and
    is the walk of every longer buffer. *)
Lemma cdr_walk_extend (data extra : bytes) (o : Z) (ps : list Param) :
  cdr_walk data o ps -> 0 <= o -> cdr_end o ps + 4 <= len data ->
  cdr_walk (data ++ extra) o ps.
Proof.
  induction 1 as [o Hlt | o Hb Hs | o d ps Hb Hs pid length Hd Hw IH];
    intros Ho Hend.
  - cbn [cdr_end] in Hend. lia.
  - apply walk_sentinel.
    + unfold len in *. rewrite length_app. lia.
    + rewrite u16_at_app by lia. exact Hs.
  - cbn [cdr_end p_offset p_length] in Hend.
    pose proof (cdr_end_ge _ _ _ Hw) as Hge.
    pose proof (round_up4_bounds length) as [Hr _].
    pose proof (u16_at_range data (o + 2)) as Hrange. fold length in Hrange.
    assert (Hp : u16_at (data ++ extra) o = pid)
      by (apply u16_at_app; lia).
    assert (Hl : u16_at (data ++ extra) (o + 2) = length)
      by (apply u16_at_app; lia).
    assert (Hv : raw_value (data ++ extra) o length = raw_value data o length)
      by (apply raw_value_app; lia).
    rewrite <- Hv.
    pose proof (walk_param (data ++ extra) o d ps) as W.
    cbv zeta in W. rewrite Hp, Hl in W. apply W.
    + unfold len in *. rewrite length_app. lia.
    + exact Hs.
    + rewrite Hv. exact Hd.
    + apply IH; lia.
Qed.

End ParameterListStructure.

(** X8: the parameters the decoder emits start on 4-byte boundaries and
    do not overlap: each record, with the length it declares, ends at or
    before the start of every later one. *)
Theorem parameters_aligned_and_disjoint (data : bytes) (ps : list Param) :
  parse_cdr_parameter_list data = Ok ps ->
  Forall (fun p => p_offset p mod 4 = 0 /\ 4 <= p_offset p) ps
  /\ StronglySorted record_before ps.
Proof.
  intros Hp.
  destruct (parse_cdr_parameter_list_walk data) as (ps0 & Hp0 & Hw).
  rewrite Hp in Hp0. inversion Hp0; subst ps0. split.
  - pose proof (cdr_walk_aligned _ _ _ Hw eq_refl) as Ha.
    pose proof (cdr_walk_emitted _ _ _ Hw) as He.
    rewrite Forall_forall in *. intros p Hin.
    split; [now apply Ha | now apply He].
  - exact (cdr_walk_sorted _ _ _ Hw).
Qed.

Lemma parameters_aligned_and_disjoint_witness :
  Forall (fun p => p_offset p mod 4 = 0 /\ 4 <= p_offset p) pid_map_params
  /\ StronglySorted record_before pid_map_params.
Proof.
  apply (parameters_aligned_and_disjoint pid_map_list).
  vm_compute. reflexivity.
Defined.

(** X9: the raw value of an emitted parameter is never a partial slice:
    it is the declared number of bytes that follow the record header when
    they all lie in the buffer, and the empty byte string when they do
    not. *)
Theorem raw_value_whole_or_empty (data : bytes) (ps : list Param) :
  parse_cdr_parameter_list data = Ok ps ->
  Forall (fun p =>
            (p_offset p + 4 + p_length p <= len data
             /\ len (p_value p) = p_length p
             /\ p_value p = firstn (Z.to_nat (p_length p))
                              (skipn (Z.to_nat (p_offset p + 4)) data))
            \/ (len data < p_offset p + 4 + p_length p /\ p_value p = []))
         ps.
Proof.
  intros Hp.
  destruct (parse_cdr_parameter_list_walk data) as (ps0 & Hp0 & Hw).
  rewrite Hp in Hp0. inversion Hp0; subst ps0.
  eapply Forall_impl; [| exact (cdr_walk_emitted _ _ _ Hw)].
  cbv beta. intros p (Ho & _ & _ & Hl & _ & Hv & _).
  pose proof (u16_at_range data (p_offset p + 2)) as Hr. rewrite <- Hl in Hr.
  rewrite Hv. unfold raw_value.
  destruct (p_offset p + 4 + p_length p <=? len data) eqn:E.
  - apply Z.leb_le in E. left. repeat split; [exact E |].
    unfold len in *. rewrite length_firstn, length_skipn. lia.
  - apply Z.leb_gt in E. right. now split.
Qed.

Lemma raw_value_whole_or_empty_witness :
  Forall (fun p =>
            (p_offset p + 4 + p_length p <= len overrun_list
             /\ len (p_value p) = p_length p
             /\ p_value p = firstn (Z.to_nat (p_length p))
                              (skipn (Z.to_nat (p_offset p + 4))
                                     overrun_list))
            \/ (len overrun_list < p_offset p + 4 + p_length p
                /\ p_value p = []))
         [ mkParam 0x0003 "PID_TOPIC_NAME" 8
             [x04; x00; x00; x00; x41; x42; x43; x00] 4 (Some "ABC");
           mkParam 0x001A "PID_DESTINATION_ORDER" 16 [] 16 None ].
Proof.
  apply (raw_value_whole_or_empty overrun_list). vm_compute. reflexivity.
Defined.

(** X10: bytes after the sentinel are never looked at: when decoding
    stops with at least four bytes left in the buffer (which is where a
    sentinel stops it), appending any bytes to the buffer leaves the
    result unchanged. *)
Theorem bytes_after_sentinel_ignored (data extra : bytes)
        (ps : list Param) :
  parse_cdr_parameter_list data = Ok ps ->
  cdr_end 4 ps + 4 <= len data ->
  parse_cdr_parameter_list (data ++ extra) = Ok ps.
Proof.
  intros Hp Hend.
  destruct (parse_cdr_parameter_list_walk data) as (ps0 & Hp0 & Hw).
  rewrite Hp in Hp0. inversion Hp0; subst ps0.
  destruct (parse_cdr_parameter_list_walk (data ++ extra))
    as (ps' & Hp' & Hw').
  rewrite Hp'. f_equal.
  eapply cdr_walk_functional; [exact Hw' |].
  apply cdr_walk_extend; [exact Hw | lia | exact Hend].
Qed.

Lemma bytes_after_sentinel_ignored_witness :
  parse_cdr_parameter_list (long_prefix_list ++ [x03; x00; x08; x00]) =
    Ok [long_prefix_param].
Proof.
  apply (bytes_after_sentinel_ignored long_prefix_list).
  - vm_compute. reflexivity.
  - vm_compute. discriminate.
Defined.

(** X11: what the decoder makes of the other well-known ids, for every
    parameter it emits.  An endpoint GUID (0x005A) is shown as the hex of
    its first 16 bytes when it has them; reliability (0x001A) needs 12
    value bytes and is RELIABLE when its first 32-bit little-endian word
    is 1, BEST_EFFORT for every other word; durability (0x001D) needs
    four bytes and shows the word as one of the four kinds or as
    UNKNOWN(n); a value too short, and every other id than these and the
    two names, gets no decoded value. *)
Theorem well_known_values_decoded (data : bytes) (ps : list Param)
        (p : Param) :
  parse_cdr_parameter_list data = Ok ps ->
  In p ps ->
  let v := p_value p in
  (p_pid p = 0x005A ->
   p_decoded p = if 16 <=? len v then Some (hex (firstn 16 v)) else None)
  /\ (p_pid p = 0x001A ->
      p_decoded p =
        if 12 <=? len v
        then Some (if u32_head v =? 1 then "RELIABLE" else "BEST_EFFORT")
        else None)
  /\ (p_pid p = 0x001D ->
      p_decoded p =
        if 4 <=? len v then Some (durability_text (u32_head v)) else None)
  /\ (~ In (p_pid p) [0x0003; 0x0004; 0x005A; 0x001A; 0x001D] ->
      p_decoded p = None).
Proof.
  intros Hp Hin v.
  destruct (parse_cdr_parameter_list_walk data) as (ps0 & Hp0 & Hw).
  rewrite Hp in Hp0. inversion Hp0; subst ps0.
  pose proof (cdr_walk_emitted _ _ _ Hw) as He.
  rewrite Forall_forall in He.
  destruct (He p Hin) as (_ & _ & _ & _ & _ & _ & Hd). fold v in Hd.
  assert (Hword : 4 <= len v ->
                  unpack_le 4 (slice v 0 4) = Ok (u32_head v)).
  { intros H4.
    rewrite (slice_const v 0 4 0 4) by (try reflexivity; lia).
    cbn [skipn]. now apply unpack_u32_head. }
  unfold decode_param in Hd.
  repeat split.
  - intros E. rewrite E in Hd. cbn [Z.eqb Pos.eqb] in Hd.
    rewrite Z.geb_leb in Hd.
    destruct (16 <=? len v) eqn:E16; rewrite ?E16 in Hd; [| congruence].
    rewrite slice_to_nonneg in Hd by lia.
    change (Z.to_nat 16) with 16%nat in Hd. congruence.
  - intros E. rewrite E in Hd. cbn [Z.eqb Pos.eqb] in Hd.
    rewrite Z.geb_leb in Hd.
    destruct (12 <=? len v) eqn:E12; rewrite ?E12 in Hd; [| congruence].
    apply Z.leb_le in E12. rewrite Hword in Hd by lia.
    cbn [bind] in Hd. congruence.
  - intros E. rewrite E in Hd. cbn [Z.eqb Pos.eqb] in Hd.
    rewrite Z.geb_leb in Hd.
    destruct (4 <=? len v) eqn:E4; rewrite ?E4 in Hd; [| congruence].
    apply Z.leb_le in E4. rewrite Hword in Hd by lia.
    cbn [bind] in Hd. inversion Hd as [Hd']. f_equal.
    unfold durability_text, durability_map. cbn [dict_get].
    repeat match goal with
           | |- context [u32_head v =? ?k] => destruct (u32_head v =? k)
           end; reflexivity.
  - intros Hnot. cbn [In] in Hnot.
    assert (E : forall k, In k [3; 4; 90; 26; 29] -> (p_pid p =? k) = false).
    { intros k Hk. apply Z.eqb_neq. intros Ek. rewrite Ek in Hnot.
      cbn [In] in Hk. tauto. }
    rewrite !E in Hd by (cbn [In]; tauto). congruence.
Qed.

Lemma well_known_values_decoded_witness :
  p_decoded (mkParam 0x001D "PID_PRESENTATION" 4 [x01; x00; x00; x00] 64
               (Some "TRANSIENT_LOCAL")) =
    Some (durability_text (u32_head [x01; x00; x00; x00])).
Proof.
  pose proof (well_known_values_decoded
                [x00; x03; x00; x00; x1d; x00; x04; x00;
                 x01; x00; x00; x00; x01; x00; x00; x00]
                [mkParam 0x001D "PID_PRESENTATION" 4 [x01; x00; x00; x00] 4
                         (Some "TRANSIENT_LOCAL")]
                (mkParam 0x001D "PID_PRESENTATION" 4 [x01; x00; x00; x00] 4
                         (Some "TRANSIENT_LOCAL"))) as H.
  destruct H as (_ & _ & H & _).
  - vm_compute. reflexivity.
  - left. reflexivity.
  - exact (H eq_refl).
Defined.

Section NameRoundTrip.

Lemma byte_val_of_Z (v : Z) : 0 <= v < 256 -> byte_val (byte_of_Z v) = v.
Proof.
  intros H. unfold byte_of_Z, byte_val.
  destruct (Byte.of_N (Z.to_N v)) as [b |] eqn:E.
  - apply Byte.to_of_N in E. rewrite E. lia.
  - apply Byte.of_N_None_iff in E. lia.
Qed.

Lemma length_le_bytes (n : nat) (v : Z) : List.length (le_bytes n v) = n.
Proof.
  revert v. induction n as [| n IH]; intros v; cbn; [reflexivity |].
  now rewrite IH.
Qed.

Lemma le_value_le_bytes (n : nat) :
  forall v, 0 <= v < 256 ^ Z.of_nat n -> le_value (le_bytes n v) = v.
Proof.
  induction n as [| n IH]; intros v Hv.
  - cbn in *. lia.
  - cbn [le_bytes le_value].
    rewrite Nat2Z.inj_succ, Z.pow_succ_r in Hv by lia.
    rewrite byte_val_of_Z by (apply Z.mod_pos_bound; lia).
    rewrite IH.
    + pose proof (Z.div_mod v 256 ltac:(lia)). lia.
    + split; [apply Z.div_pos; lia |].
      apply Z.div_lt_upper_bound; lia.
Qed.

(** A two-byte segment at the end of [pre] is the 16-bit field there. *)
Lemma u16_at_segment (pre seg rest : bytes) :
  List.length seg = 2%nat ->
  u16_at (pre ++ seg ++ rest) (len pre) = le_value seg.
Proof.
  intros Hs.
  pose proof (unpack_u16_at (pre ++ seg ++ rest) (len pre)) as H.
  rewrite slice_nonneg in H by (unfold len; lia).
  replace (Z.to_nat (len pre + 2 - len pre)) with (List.length seg) in H
    by lia.
  replace (Z.to_nat (len pre)) with (List.length pre) in H
    by (unfold len; lia).
  rewrite skipn_app, skipn_all, Nat.sub_diag in H. cbn [skipn app] in H.
  rewrite firstn_app, firstn_all, Nat.sub_diag in H.
  cbn [firstn] in H. rewrite app_nil_r in H.
  rewrite (unpack_le_exact 2 seg Hs) in H.
  assert (Hok : Ok (le_value seg) = Ok (u16_at (pre ++ seg ++ rest) (len pre))).
  { apply H; unfold len; rewrite ?length_app; lia. }
  now inversion Hok.
Qed.

Lemma u32_head_segment (seg rest : bytes) :
  List.length seg = 4%nat -> u32_head (seg ++ rest) = le_value seg.
Proof.
  intros Hs.
  pose proof (unpack_u32_head (seg ++ rest)) as H.
  assert (F : firstn 4 (seg ++ rest) = seg).
  { rewrite <- Hs. rewrite firstn_app, firstn_all, Nat.sub_diag.
    cbn [firstn]. apply app_nil_r. }
  rewrite F, (unpack_le_exact 4 seg Hs) in H.
  assert (Hok : Ok (le_value seg) = Ok (u32_head (seg ++ rest))).
  { apply H. unfold len. rewrite length_app. lia. }
  now inversion Hok.
Qed.

(** The text of a well-formed name value is the text it was made of. *)
Lemma decode_string_name_value (text pad : bytes) :
  len text + 1 < 2 ^ 32 ->
  decode_string (name_value text pad) = decode_utf8_ignore text.
Proof.
  intros Hn. destruct (decode_string_cases (name_value text pad)) as [_ H].
  unfold name_value in *.
  rewrite H by (unfold len; rewrite length_app, length_le_bytes; lia).
  rewrite u32_head_segment by apply length_le_bytes.
  rewrite le_value_le_bytes by (unfold len in *; cbn; lia).
  f_equal.
  pose proof (length_le_bytes 4 (len text + 1)) as Hl.
  rewrite <- Hl at 1.
  rewrite skipn_app, skipn_all, Nat.sub_diag. cbn [skipn app].
  replace (Z.to_nat (len text + 1 - 1)) with (List.length text)
    by (unfold len; lia).
  rewrite firstn_app, firstn_all, Nat.sub_diag. cbn [firstn].
  apply app_nil_r.
Qed.

Lemma decode_utf8_ignore_ascii (s : string) :
  is_ascii s -> decode_utf8_ignore (text_bytes s) = s.
Proof.
  unfold is_ascii, text_bytes.
  induction s as [| c s IH]; intros H; [reflexivity |].
  cbn [list_ascii_of_string map] in *.
  inversion H as [| c' l Hc Hs]; subst.
  cbn [decode_utf8_ignore].
  assert (Hv : byte_val (byte_of_ascii c) = Z.of_N (N_of_ascii c)).
  { unfold byte_val. f_equal. apply Byte.to_of_N.
    symmetry. apply byte_of_ascii_via_N. }
  assert (Hlt : (byte_val (byte_of_ascii c) <? 128) = true)
    by (apply Z.ltb_lt; lia).
  rewrite Hlt. unfold chr. rewrite ascii_of_byte_of_ascii.
  f_equal. apply IH. exact Hs.
Qed.

End NameRoundTrip.

(** X12: round trip of a name.  A parameter list that holds one topic
    name or type name of 7-bit text in the wire format (32-bit count of
    the text and its terminator, the text, the terminator, padding to a
    multiple of four), followed by the sentinel, decodes to the one
    parameter whose decoded value is exactly that text. *)
Theorem name_round_trip (encapsulation pad : bytes) (pid : Z)
        (text : string) :
  List.length encapsulation = 4%nat ->
  pid = 0x0003 \/ pid = 0x0004 ->
  is_ascii text ->
  let value := name_value (text_bytes text) pad in
  len value mod 4 = 0 ->
  len value < 65536 ->
  parse_cdr_parameter_list (one_parameter_list encapsulation pid value) =
    Ok [mkParam pid (pid_name pid) (len value) value 4 (Some text)].
Proof.
  intros Henc Hpid Hascii value Hmod Hlen.
  set (data := one_parameter_list encapsulation pid value).
  destruct (parse_cdr_parameter_list_walk data) as (ps & -> & Hw).
  f_equal. eapply cdr_walk_functional; [exact Hw |].
  pose proof (len_nonneg value) as Hv0.
  assert (Hpid16 : 0 <= pid < 256 ^ Z.of_nat 2)
    by (change (256 ^ Z.of_nat 2) with 65536; lia).
  assert (Hlen16 : 0 <= len value < 256 ^ Z.of_nat 2)
    by (change (256 ^ Z.of_nat 2) with 65536; lia).
  assert (Hdlen : len data = 12 + len value).
  { subst data. unfold one_parameter_list, len.
    rewrite !length_app, !length_le_bytes, Henc. cbn [List.length]. lia. }
  assert (Hp : u16_at data 4 = pid).
  { subst data. unfold one_parameter_list.
    replace 4 with (len encapsulation) by (unfold len; lia).
    rewrite u16_at_segment by apply length_le_bytes.
    now apply le_value_le_bytes. }
  assert (Hl : u16_at data (4 + 2) = len value).
  { subst data. unfold one_parameter_list.
    rewrite (app_assoc encapsulation).
    replace (4 + 2) with (len (encapsulation ++ le_bytes 2 pid))
      by (unfold len; rewrite length_app, length_le_bytes; lia).
    rewrite u16_at_segment by apply length_le_bytes.
    now apply le_value_le_bytes. }
  assert (Hs : u16_at data (8 + len value) = PID_SENTINEL).
  { subst data. unfold one_parameter_list.
    rewrite (app_assoc encapsulation), (app_assoc _ (le_bytes 2 (len value))),
      (app_assoc _ value).
    replace (8 + len value)
      with (len (((encapsulation ++ le_bytes 2 pid)
                  ++ le_bytes 2 (len value)) ++ value))
      by (unfold len; rewrite !length_app, !length_le_bytes; lia).
    change [x01; x00; x00; x00] with ([x01; x00] ++ [x00; x00]).
    rewrite u16_at_segment by reflexivity. reflexivity. }
  assert (Hraw : raw_value data 4 (len value) = value).
  { unfold raw_value.
    assert (E : (4 + 4 + len value <=? len data) = true)
      by (apply Z.leb_le; lia).
    rewrite E. subst data. unfold one_parameter_list.
    rewrite (app_assoc encapsulation), (app_assoc _ (le_bytes 2 (len value))).
    replace (Z.to_nat (4 + 4))
      with (List.length ((encapsulation ++ le_bytes 2 pid)
                         ++ le_bytes 2 (len value)))
      by (rewrite !length_app, !length_le_bytes; lia).
    rewrite skipn_app, skipn_all, Nat.sub_diag. cbn [skipn app].
    replace (Z.to_nat (len value)) with (List.length value)
      by (unfold len; lia).
    rewrite firstn_app, firstn_all, Nat.sub_diag. cbn [firstn].
    apply app_nil_r. }
  assert (Hdec : decode_param pid value = Ok (Some text)).
  { assert (Ht : decode_string value = text).
    { subst value. rewrite decode_string_name_value.
      - now apply decode_utf8_ignore_ascii.
      - unfold name_value, len in Hlen.
        rewrite !length_app, length_le_bytes in Hlen.
        cbn [List.length] in Hlen. unfold len. lia. }
    unfold decode_param.
    destruct Hpid as [-> | ->]; cbn [Z.eqb Pos.eqb]; now rewrite Ht. }
  assert (Hru : round_up4 (len value) = len value).
  { unfold round_up4.
    pose proof (Z.div_mod (len value) 4 ltac:(lia)) as Hd.
    rewrite Hmod in Hd.
    replace (len value + 3) with (3 + len value / 4 * 4) by lia.
    rewrite Z.div_add by lia. change (3 / 4) with 0. lia. }
  pose proof (walk_param data 4 (Some text) []) as W. cbv zeta in W.
  rewrite Hp, Hl, Hraw in W. apply W.
  - lia.
  - destruct Hpid as [-> | ->]; discriminate.
  - exact Hdec.
  - rewrite Hru. replace (4 + 4 + len value) with (8 + len value) by lia.
    apply walk_sentinel; [lia | exact Hs].
Qed.

Lemma name_round_trip_witness :
  parse_cdr_parameter_list
    (one_parameter_list [x00; x03; x00; x00] 0x0003
       (name_value (text_bytes "TempSensor") [x00])) =
    Ok [mkParam 0x0003 (pid_name 0x0003)
          (len (name_value (text_bytes "TempSensor") [x00]))
          (name_value (text_bytes "TempSensor") [x00]) 4
          (Some "TempSensor")].
Proof.
  apply (name_round_trip [x00; x03; x00; x00] [x00] 0x0003 "TempSensor").
  - reflexivity.
  - left. reflexivity.
  - unfold is_ascii. cbn [list_ascii_of_string].
    repeat constructor.
  - vm_compute. reflexivity.
  - vm_compute. reflexivity.
Defined.

(* ------------------------------------------------------------------ *)
(** ** SEDP validation: further properties *)

Section ValidatorCompleteness.

Lemma missing_issues_nil_inv (required : dict string)
      (params : list Param) :
  missing_issues required params = [] -> all_found required params.
Proof.
  unfold missing_issues, all_found.
  induction required as [| [k name] r IH]; intros H pid Hin;
    cbn [map fst In] in Hin; [contradiction |].
  cbn [flat_map fst snd] in H. apply app_eq_nil in H. destruct H as [Hk Hr].
  destruct Hin as [<- | Hin].
  - apply found_iff. destruct (found params k); [reflexivity | discriminate].
  - now apply IH.
Qed.

Lemma bad_name_false_inv (p : Param) : bad_name p = false -> good_name p.
Proof.
  unfold bad_name, good_name. intros H.
  apply orb_false_iff in H. destruct H as [He Hm].
  destruct (p_decoded p) as [s |]; [| discriminate He].
  exists s. split; [reflexivity |]. split; now apply String.eqb_neq.
Qed.

Lemma name_issues_nil_inv (params : list Param) :
  name_issues params = [] ->
  forall p, In p params ->
            p_pid p = 0x0003 \/ p_pid p = 0x0004 -> good_name p.
Proof.
  unfold name_issues.
  induction params as [| q ps IH]; intros H p Hin Hpid; [contradiction |].
  cbn [flat_map] in H. apply app_eq_nil in H. destruct H as [Hq Hps].
  destruct Hin as [-> | Hin]; [| now apply IH].
  apply app_eq_nil in Hq. destruct Hq as [H3 H4].
  apply bad_name_false_inv.
  destruct (bad_name p); [| reflexivity].
  destruct Hpid as [E | E]; rewrite E in *; discriminate.
Qed.

(** The issue list of an announcement: the missing-parameter issues in
    the order of the required table, then the name issues in the order of
    the parameters. *)
Lemma validate_sedp_issues (submsg : Submessage) (f : DataFields)
      (params : list Param) :
  sm_fields submsg = Some f ->
  entity_type f = "SEDP_PUB" \/ entity_type f = "SEDP_SUB" ->
  fst (validate_sedp_packet submsg params) =
    missing_issues REQUIRED_SEDP_WRITER_PIDS params ++ name_issues params.
Proof.
  intros Hf Hrole. unfold validate_sedp_packet.
  rewrite Hf. cbn [option_map].
  destruct Hrole as [-> | ->]; reflexivity.
Qed.

Lemma name_issue_reported (params : list Param) (p : Param) :
  In p params -> bad_name p = true ->
  (p_pid p = 0x0003 -> In "Empty or invalid TOPIC_NAME" (name_issues params))
  /\ (p_pid p = 0x0004 ->
      In "Empty or invalid TYPE_NAME" (name_issues params)).
Proof.
  intros Hin Hbad. unfold name_issues.
  split; intros E; apply in_flat_map; exists p; (split; [exact Hin |]);
    rewrite E, Hbad; cbn; tauto.
Qed.

(** A name parameter that the decoder emits is bad when its raw value is
    shorter than four bytes or its string count is 0 or 1. *)
Lemma decoded_name_bad (data : bytes) (ps : list Param) (p : Param) :
  parse_cdr_parameter_list data = Ok ps ->
  In p ps ->
  p_pid p = 0x0003 \/ p_pid p = 0x0004 ->
  len (p_value p) < 4 \/ u32_head (p_value p) <= 1 ->
  bad_name p = true.
Proof.
  intros Hp Hin Hpid Hshort.
  destruct (parse_cdr_parameter_list_walk data) as (ps0 & Hp0 & Hw).
  rewrite Hp in Hp0. inversion Hp0; subst ps0.
  pose proof (cdr_walk_emitted _ _ _ Hw) as He.
  rewrite Forall_forall in He.
  destruct (He p Hin) as (_ & _ & _ & _ & _ & _ & Hd).
  assert (Hdec : p_decoded p = Some (decode_string (p_value p))).
  { destruct Hpid as [E | E]; rewrite E in Hd; cbn in Hd; now inversion Hd. }
  unfold bad_name. rewrite Hdec.
  destruct (decode_string_cases (p_value p)) as [Hlt Hge].
  destruct (Z_lt_ge_dec (len (p_value p)) 4) as [H4 | H4].
  - rewrite Hlt by exact H4. apply orb_true_iff. right. reflexivity.
  - destruct Hshort as [Hs | Hs]; [lia |].
    rewrite Hge by lia.
    replace (Z.to_nat (u32_head (p_value p) - 1)) with 0%nat by lia.
    reflexivity.
Qed.

End ValidatorCompleteness.

(** X13: the validator reports no issue for an announcement only when it
    is compliant: for a DATA submessage classified SEDP_PUB or SEDP_SUB the
    issue list is empty exactly when every id of the required table is the
    id of some parameter and every topic-name and type-name parameter has
    a non-empty text that is not the decode-error marker. *)
Theorem no_issue_iff_compliant (submsg : Submessage) (f : DataFields)
        (params : list Param) :
  sm_fields submsg = Some f ->
  entity_type f = "SEDP_PUB" \/ entity_type f = "SEDP_SUB" ->
  (fst (validate_sedp_packet submsg params) = [] <->
   all_found REQUIRED_SEDP_WRITER_PIDS params
   /\ forall p, In p params ->
                p_pid p = 0x0003 \/ p_pid p = 0x0004 -> good_name p).
Proof.
  intros Hf Hrole.
  rewrite (validate_sedp_issues submsg f params Hf Hrole). split.
  - intros H. apply app_eq_nil in H. destruct H as [Hm Hn]. split.
    + now apply missing_issues_nil_inv.
    + now apply name_issues_nil_inv.
  - intros [Hall Hnames].
    now rewrite (missing_issues_none _ _ Hall), (name_issues_none _ Hnames).
Qed.

Lemma no_issue_iff_compliant_witness :
  fst (validate_sedp_packet sample_data compliant_params) = [] <->
  all_found REQUIRED_SEDP_WRITER_PIDS compliant_params
  /\ forall p, In p compliant_params ->
               p_pid p = 0x0003 \/ p_pid p = 0x0004 -> good_name p.
Proof.
  apply (no_issue_iff_compliant sample_data
           (mkDataFields 0 16 0 0x3C2 1 "SEDP_PUB" [x00; x03; x00; x00])).
  - reflexivity.
  - left. reflexivity.
Defined.

(** X14: decoding and validation together.  For an announcement whose
    parameters are what the decoder makes of a buffer, every topic-name
    parameter whose raw value is shorter than four bytes (as when its
    declared length overruns the buffer) or whose string count is 0 or 1
    (an empty text) is reported as "Empty or invalid TOPIC_NAME", and
    every such type-name parameter as "Empty or invalid TYPE_NAME". *)
Theorem malformed_name_reported (data : bytes) (ps : list Param)
        (p : Param) (submsg : Submessage) (f : DataFields) :
  parse_cdr_parameter_list data = Ok ps ->
  In p ps ->
  len (p_value p) < 4 \/ u32_head (p_value p) <= 1 ->
  sm_fields submsg = Some f ->
  entity_type f = "SEDP_PUB" \/ entity_type f = "SEDP_SUB" ->
  (p_pid p = 0x0003 ->
   In "Empty or invalid TOPIC_NAME" (fst (validate_sedp_packet submsg ps)))
  /\ (p_pid p = 0x0004 ->
      In "Empty or invalid TYPE_NAME" (fst (validate_sedp_packet submsg ps))).
Proof.
  intros Hp Hin Hshort Hf Hrole.
  rewrite (validate_sedp_issues submsg f ps Hf Hrole).
  split; intros E; apply in_or_app; right;
    apply (name_issue_reported ps p Hin); try exact E;
    apply (decoded_name_bad data ps p Hp Hin); auto.
Qed.

Lemma malformed_name_reported_witness :
  In "Empty or invalid TYPE_NAME"
     (fst (validate_sedp_packet sample_data
             [ mkParam 0x0004 "PID_TYPE_NAME" 8 [] 4
                       (Some DECODE_ERROR) ])).
Proof.
  refine (proj2 (malformed_name_reported
                   [x00; x03; x00; x00; x04; x00; x08; x00; x04; x00]
                   _ _ sample_data
                   (mkDataFields 0 16 0 0x3C2 1 "SEDP_PUB"
                                 [x00; x03; x00; x00])
                   _ _ _ _ _) _).
  - vm_compute. reflexivity.
  - left. reflexivity.
  - left. vm_compute. reflexivity.
  - reflexivity.
  - left. reflexivity.
  - reflexivity.
Defined.

(* ------------------------------------------------------------------ *)
(** ** Capture reading: further properties *)

Section CaptureStructure.

Variable endian : endianness.

Lemma header_field_nonneg (h : bytes) (k : nat) :
  0 <= header_field endian h k.
Proof.
  unfold header_field, field_value. destruct endian.
  - apply le_value_bound.
  - unfold be_value.
    assert (H : forall l acc, 0 <= acc ->
                0 <= fold_left (fun a x => a * 256 + byte_val x) l acc).
    { induction l as [| x l IH]; intros acc Hacc; cbn [fold_left];
        [exact Hacc |].
      apply IH. pose proof (byte_val_range x). lia. }
    apply H. lia.
Qed.

Lemma bind_cons_Ok_inv (r : result (list Packet)) (pkt : Packet)
      (ps : list Packet) :
  bind r (fun rest => Ok (pkt :: rest)) = Ok ps ->
  exists rest, r = Ok rest /\ ps = pkt :: rest.
Proof.
  intros H. apply bind_Ok_inv in H. destruct H as (rest & Hr & H).
  inversion H. eauto.
Qed.

(** What the loop returns comes from complete records at the head of
    what it reads; it stops at less than a record header, or at a record
    that declares more data than is left. *)
Lemma read_packets_decompose (fuel : nat) :
  forall f n out ps,
    read_packets fuel endian f n = (out, Ok ps) ->
    exists recs tail,
      f = records_bytes recs ++ tail
      /\ Forall (complete_record endian) recs
      /\ ps = packets_from endian n recs
      /\ ((out = [] /\ len tail < 16)
          \/ (out = [truncated_warning (n + Z.of_nat (List.length recs) + 1)]
              /\ 16 <= len tail
              /\ len tail - 16 < header_field endian (firstn 16 tail) 2)).
Proof.
  induction fuel as [| fuel IH]; intros f n out ps H;
    cbn [read_packets] in H; unfold read at 1 in H;
    change (Z.to_nat 16) with 16%nat in H.
  - destruct (len (firstn 16 f) <? 16) eqn:E; [| discriminate H].
    apply Z.ltb_lt in E. inversion H; subst.
    exists [], f. repeat split; [constructor |].
    left. split; [reflexivity |].
    unfold len in *. rewrite length_firstn in E. lia.
  - destruct (len (firstn 16 f) <? 16) eqn:E.
    { apply Z.ltb_lt in E. inversion H; subst.
      exists [], f. repeat split; [constructor |].
      left. split; [reflexivity |].
      unfold len in *. rewrite length_firstn in E. lia. }
    apply Z.ltb_ge in E.
    assert (H16 : List.length (firstn 16 f) = 16%nat).
    { unfold len in E. rewrite length_firstn in *. lia. }
    rewrite (unpack_IIII_header endian _ H16) in H.
    unfold read in H.
    set (h := firstn 16 f) in *.
    set (incl := header_field endian h 2) in *.
    set (d := firstn (Z.to_nat incl) (skipn 16 f)) in *.
    assert (Hf16 : (16 <= List.length f)%nat)
      by (subst h; rewrite length_firstn in H16; lia).
    destruct (len d <? incl) eqn:Et.
    + apply Z.ltb_lt in Et. inversion H; subst out ps.
      exists [], f. repeat split; [constructor |].
      right. cbn [List.length]. split; [f_equal; f_equal; lia |].
      fold h. fold incl.
      subst d. unfold len in *. rewrite length_firstn, length_skipn in Et.
      split; lia.
    + apply Z.ltb_ge in Et.
      destruct (read_packets fuel endian (skipn (Z.to_nat incl) (skipn 16 f))
                             (n + 1)) as [out' r] eqn:Hrec.
      inversion H as [[Hout Hr]]. subst out'.
      apply bind_cons_Ok_inv in Hr. destruct Hr as (rest & -> & ->).
      destruct (IH _ _ _ _ Hrec) as (recs & tail & Hsplit & Hrecs & -> & Hend).
      assert (Hd : len d = incl).
      { pose proof (header_field_nonneg h 2) as Hnn. fold incl in Hnn.
        subst d. unfold len in *. rewrite length_firstn in *. lia. }
      exists ((h, d) :: recs), tail. repeat split.
      * cbn [records_bytes flat_map fst snd]. fold (records_bytes recs).
        rewrite <- app_assoc, <- Hsplit. subst d.
        rewrite <- app_assoc, firstn_skipn. subst h.
        now rewrite firstn_skipn.
      * constructor; [split; [exact H16 | cbn [fst snd]; now rewrite Hd] |].
        exact Hrecs.
      * cbn [packets_from]. now rewrite Hd.
      * cbn [List.length]. rewrite Nat2Z.inj_succ.
        replace (n + Z.succ (Z.of_nat (List.length recs)) + 1)
          with (n + 1 + Z.of_nat (List.length recs) + 1) by lia.
        exact Hend.
Qed.

End CaptureStructure.

(** X15: every packet [read_pcap] returns is a whole record of the file.
    When it returns packets, the file is a 24-byte header with a
    recognised magic, then complete records, then a tail; the packets are
    those records in file order, numbered from 1, each with its captured
    length as size; and either nothing was printed and the tail is shorter
    than a record header, or the one truncation warning was printed, with
    the number after the last packet, for a tail whose record header
    declares more data than follows it. *)
Theorem capture_is_header_records_tail (file : bytes) (out : list string)
        (ps : list Packet) :
  read_pcap file = (out, Ok ps) ->
  exists endian hdr recs tail,
    file = hdr ++ records_bytes recs ++ tail
    /\ pcap_header endian hdr
    /\ Forall (complete_record endian) recs
    /\ ps = packets_from endian 0 recs
    /\ ((out = [] /\ len tail < 16)
        \/ (out = [truncated_warning (Z.of_nat (List.length recs) + 1)]
            /\ 16 <= len tail
            /\ len tail - 16 < header_field endian (firstn 16 tail) 2)).
Proof.
  unfold read_pcap, read. change (Z.to_nat 24) with 24%nat. intros H.
  destruct (len (firstn 24 file) <? 24) eqn:E; [discriminate H |].
  apply Z.ltb_ge in E. unfold len in E. rewrite length_firstn in E.
  rewrite slice_to_nonneg in H by lia. change (Z.to_nat 4) with 4%nat in H.
  rewrite unpack_u32_head in H
    by (unfold len; rewrite length_firstn; lia).
  assert (Hdec : forall endian,
             u32_head (firstn 24 file) = magic_of endian ->
             read_packets (List.length file) endian (skipn 24 file) 0
             = (out, Ok ps) ->
             exists endian hdr recs tail,
               file = hdr ++ records_bytes recs ++ tail
               /\ pcap_header endian hdr
               /\ Forall (complete_record endian) recs
               /\ ps = packets_from endian 0 recs
               /\ ((out = [] /\ len tail < 16)
                   \/ (out = [truncated_warning
                                (Z.of_nat (List.length recs) + 1)]
                       /\ 16 <= len tail
                       /\ len tail - 16
                          < header_field endian (firstn 16 tail) 2))).
  { intros endian Hm Hr.
    destruct (read_packets_decompose endian _ _ _ _ _ Hr)
      as (recs & tail & Hsplit & Hrecs & Hps & Hend).
    exists endian, (firstn 24 file), recs, tail.
    rewrite <- Hsplit, firstn_skipn.
    repeat split; try assumption.
    rewrite length_firstn. lia. }
  destruct (u32_head (firstn 24 file) =? 0xa1b2c3d4) eqn:El.
  { apply Z.eqb_eq in El. now apply (Hdec LittleEndian). }
  destruct (u32_head (firstn 24 file) =? 0xd4c3b2a1) eqn:Eb;
    [| discriminate H].
  apply Z.eqb_eq in Eb. now apply (Hdec BigEndian).
Qed.

Lemma capture_is_header_records_tail_witness :
  exists endian hdr recs tail,
    sample_header ++ records_bytes [sample_record] ++ [x01; x00; x00]
    = hdr ++ records_bytes recs ++ tail
    /\ pcap_header endian hdr
    /\ Forall (complete_record endian) recs
    /\ [sample_packet] = packets_from endian 0 recs
    /\ ((@nil string = [] /\ len tail < 16)
        \/ (@nil string = [truncated_warning (Z.of_nat (List.length recs) + 1)]
            /\ 16 <= len tail
            /\ len tail - 16 < header_field endian (firstn 16 tail) 2)).
Proof.
  apply (capture_is_header_records_tail
           (sample_header ++ records_bytes [sample_record]
            ++ [x01; x00; x00]) [] [sample_packet]).
  vm_compute. reflexivity.
Defined.

(** X16: a capture that ends exactly after its last record: a recognised
    24-byte header followed by complete records and nothing else gives one
    packet for each record, in order, and prints nothing. *)
Theorem complete_capture_read (endian : endianness) (hdr : bytes)
        (recs : list (bytes * bytes)) :
  pcap_header endian hdr ->
  Forall (complete_record endian) recs ->
  read_pcap (hdr ++ records_bytes recs) =
    ([], Ok (packets_from endian 0 recs))
  /\ List.length (packets_from endian 0 recs) = List.length recs.
Proof.
  intros Hh Hrecs. split.
  - rewrite (read_pcap_header endian _ _ Hh).
    pose proof (records_bytes_length endian recs Hrecs) as Hn.
    rewrite <- (app_nil_r (records_bytes recs)) at 2.
    rewrite read_packets_records; [| exact Hrecs |].
    2:{ rewrite !length_app. lia. }
    rewrite read_packets_partial by (cbn; lia).
    cbn [bind]. now rewrite app_nil_r.
  - generalize 0. induction recs as [| [h d] recs IH]; intros n;
      [reflexivity |].
    inversion Hrecs; subst. cbn [packets_from List.length].
    f_equal. now apply IH.
Qed.

Lemma complete_capture_read_witness :
  read_pcap (sample_header ++ records_bytes [sample_record; sample_record]) =
    ([], Ok (packets_from LittleEndian 0 [sample_record; sample_record]))
  /\ List.length (packets_from LittleEndian 0 [sample_record; sample_record])
     = List.length [sample_record; sample_record].
Proof.
  apply (complete_capture_read LittleEndian sample_header
           [sample_record; sample_record]).
  - split; reflexivity.
  - repeat constructor.
Defined.

(* ------------------------------------------------------------------ *)
(** ** The analysis of a capture: properties *)

Section Analysis.

Variable show_params : bool.

Lemma report_announcement_total (pkt : Packet) (udp : Udp)
      (rtps : RtpsHeader) (submsg : Submessage) (et : string)
      (f : DataFields) :
  exists out,
    report_announcement show_params pkt udp rtps submsg et f = (out, Ok tt).
Proof.
  unfold report_announcement.
  destruct (parse_cdr_parameter_list_walk (payload f)) as (ps & Hps & _).
  rewrite Hps. unfold io_bind, io_lift, print_all, print, io_ret.
  destruct (validate_sedp_packet submsg ps) as [issues warnings].
  destruct show_params; eexists; reflexivity.
Qed.

Lemma count_role_cons (role r : string) (roles : list string) :
  count_role role (r :: roles) =
    (if String.eqb r role then 1 else 0) + count_role role roles.
Proof.
  unfold count_role. cbn [filter].
  destruct (String.eqb r role); cbn [List.length]; lia.
Qed.

Lemma count_role_app (role : string) (a b : list string) :
  count_role role (a ++ b) = count_role role a + count_role role b.
Proof.
  unfold count_role. rewrite filter_app, length_app. lia.
Qed.

(** The counters after the submessages of one packet. *)
Lemma analyze_submessages_counts (pkt : Packet) (udp : Udp)
      (rtps : RtpsHeader) (sms : list Submessage) :
  forall c,
  exists out c',
    analyze_submessages show_params pkt udp rtps sms c = (out, Ok c')
    /\ rtps_count c' = rtps_count c
    /\ spdp_count c' = spdp_count c + count_role "SPDP" (sm_roles sms)
    /\ sedp_count c' = sedp_count c
                        + count_role "SEDP_PUB" (sm_roles sms)
                        + count_role "SEDP_SUB" (sm_roles sms).
Proof.
  induction sms as [| sm sms IH]; intros c.
  - exists [], c. cbn. repeat split; lia.
  - cbn [analyze_submessages sm_roles flat_map]. fold (sm_roles sms).
    destruct (sm_id sm =? RTPS_SUBMSG_DATA); cbn [negb app].
    2:{ apply IH. }
    destruct (sm_fields sm) as [f |]; cbn [app]; [| apply IH].
    rewrite !count_role_cons.
    destruct (String.eqb (entity_type f) "SPDP") eqn:Es.
    { apply String.eqb_eq in Es. rewrite Es. cbn [String.eqb Ascii.eqb
        Bool.eqb].
      destruct (IH (mkCounters (rtps_count c) (sedp_count c)
                               (spdp_count c + 1)))
        as (out & c' & -> & Hr & Hs & Hd).
      cbn [rtps_count sedp_count spdp_count] in *.
      exists out, c'. repeat split; lia. }
    destruct (String.eqb (entity_type f) "SEDP_PUB") eqn:Ep.
    { apply String.eqb_eq in Ep. rewrite Ep.
      cbn [orb String.eqb Ascii.eqb Bool.eqb].
      destruct (report_announcement_total pkt udp rtps sm "SEDP_PUB" f)
        as (o1 & ->).
      destruct (IH (mkCounters (rtps_count c) (sedp_count c + 1)
                               (spdp_count c)))
        as (out & c' & Hrun & Hr & Hs & Hd).
      cbn [io_bind]. rewrite Hrun.
      cbn [rtps_count sedp_count spdp_count] in *.
      exists (o1 ++ out), c'. repeat split; lia. }
    destruct (String.eqb (entity_type f) "SEDP_SUB") eqn:Eb; cbn [orb].
    { apply String.eqb_eq in Eb. rewrite Eb.
      destruct (report_announcement_total pkt udp rtps sm "SEDP_SUB" f)
        as (o1 & ->).
      destruct (IH (mkCounters (rtps_count c) (sedp_count c + 1)
                               (spdp_count c)))
        as (out & c' & Hrun & Hr & Hs & Hd).
      cbn [io_bind]. rewrite Hrun.
      cbn [rtps_count sedp_count spdp_count] in *.
      exists (o1 ++ out), c'. repeat split; lia. }
    destruct (IH c) as (out & c' & -> & Hr & Hs & Hd).
    exists out, c'. repeat split; lia.
Qed.

(** The counters after one packet. *)
Lemma analyze_packet_counts (pkt : Packet) (c : Counters) :
  exists out c',
    analyze_packet show_params pkt c = (out, Ok c')
    /\ (decapsulate (pk_data pkt) = None -> out = [] /\ c' = c)
    /\ rtps_count c' = rtps_count c
                        + Z.of_nat (List.length (rtps_packets [pkt]))
    /\ spdp_count c' = spdp_count c
                        + count_role "SPDP" (announced_roles [pkt])
    /\ sedp_count c' = sedp_count c
                        + count_role "SEDP_PUB" (announced_roles [pkt])
                        + count_role "SEDP_SUB" (announced_roles [pkt]).
Proof.
  unfold analyze_packet, announced_roles, rtps_packets, decapsulate.
  cbn [flat_map filter]. rewrite app_nil_r.
  assert (Hskip : exists out c',
             io_ret c = (out, Ok c')
             /\ (@None (Udp * RtpsHeader) = None -> out = [] /\ c' = c)
             /\ rtps_count c' = rtps_count c + Z.of_nat (@List.length Packet [])
             /\ spdp_count c' = spdp_count c + count_role "SPDP" []
             /\ sedp_count c' = sedp_count c + count_role "SEDP_PUB" []
                                 + count_role "SEDP_SUB" []).
  { exists [], c. cbn. repeat split; lia. }
  destruct (parse_ethernet_total (pk_data pkt)) as (r1 & ->).
  cbn [io_bind io_lift].
  destruct r1 as [[| b ip] |]; [exact Hskip | | exact Hskip].
  destruct (parse_ip_total (b :: ip)) as (r2 & ->).
  destruct r2 as [udp |]; [| exact Hskip].
  destruct (parse_rtps_header_total (udp_payload udp)) as (r3 & -> & Hoff).
  destruct r3 as [rtps |]; [| exact Hskip].
  rewrite (Hoff rtps eq_refl). unfold roles_of.
  destruct (parse_submessages_loop_inside
              (Z.to_nat (len (udp_payload udp) - 20)) (udp_payload udp) 20)
    as (sms & Hsms & _); [lia | lia |].
  unfold parse_submessages at 1 2 3 4. rewrite Hsms.
  destruct (analyze_submessages_counts pkt udp rtps sms
              (mkCounters (rtps_count c + 1) (sedp_count c) (spdp_count c)))
    as (out & c' & Hrun & Hr & Hs & Hd).
  cbn [fst snd app]. rewrite Hrun.
  cbn [rtps_count sedp_count spdp_count] in *.
  exists out, c'. cbn [List.length app].
  repeat split; try discriminate; lia.
Qed.

(** The counters after the packets of a capture. *)
Lemma analyze_packets_counts (packets : list Packet) :
  forall c,
  exists out c',
    analyze_packets show_params packets c = (out, Ok c')
    /\ (Forall (fun pkt => decapsulate (pk_data pkt) = None) packets ->
        out = [] /\ c' = c)
    /\ rtps_count c' = rtps_count c
                        + Z.of_nat (List.length (rtps_packets packets))
    /\ spdp_count c' = spdp_count c
                        + count_role "SPDP" (announced_roles packets)
    /\ sedp_count c' = sedp_count c
                        + count_role "SEDP_PUB" (announced_roles packets)
                        + count_role "SEDP_SUB" (announced_roles packets).
Proof.
  induction packets as [| pkt packets IH]; intros c.
  - exists [], c. cbn. repeat split; lia.
  - cbn [analyze_packets].
    destruct (analyze_packet_counts pkt c)
      as (o1 & c1 & -> & Hnone1 & Hr1 & Hs1 & Hd1).
    destruct (IH c1) as (o2 & c2 & Hrun & Hnone2 & Hr2 & Hs2 & Hd2).
    cbn [io_bind]. rewrite Hrun. exists (o1 ++ o2), c2.
    change (pkt :: packets) with ([pkt] ++ packets).
    unfold announced_roles, rtps_packets in *.
    rewrite flat_map_app, filter_app, length_app, !count_role_app.
    repeat split; try lia.
    + inversion H as [| ? ? Hp Hps]; subst.
      destruct (Hnone1 Hp) as [-> _]. now destruct (Hnone2 Hps) as [-> _].
    + inversion H as [| ? ? Hp Hps]; subst.
      destruct (Hnone1 Hp) as [_ ->]. now destruct (Hnone2 Hps) as [_ ->].
Qed.

(** [analyze_pcap] after a capture that was read. *)
Lemma analyze_pcap_after_read (filepath : string) (file : bytes)
      (verbose dump_pids : bool) (w : list string) (packets : list Packet) :
  show_params = (dump_pids || verbose) ->
  read_pcap file = (w, Ok packets) ->
  forall out c,
    analyze_packets show_params packets (mkCounters 0 0 0) = (out, Ok c) ->
    analyze_pcap filepath file verbose dump_pids =
      (String.append "Reading: " filepath
         :: w ++ total_line (List.length packets) :: out ++ summary_lines c,
       Ok c).
Proof.
  intros Hshow Hread out c Hrun. unfold analyze_pcap.
  rewrite Hread, <- Hshow. unfold io_bind at 1 2 3, print.
  rewrite Hrun. unfold io_bind, print_all, io_ret, total_line.
  cbn [app]. now rewrite !app_nil_r.
Qed.

End Analysis.

Section AnalysisOutcome.

Lemma read_pcap_fatal (file : bytes) :
  len file < 24
  \/ (u32_head file <> 0xa1b2c3d4 /\ u32_head file <> 0xd4c3b2a1) ->
  exists msg, read_pcap file = ([], Raise (ValueError msg)).
Proof.
  intros H. unfold read_pcap, read. change (Z.to_nat 24) with 24%nat.
  destruct (len (firstn 24 file) <? 24) eqn:E; [eauto |].
  apply Z.ltb_ge in E. unfold len in E. rewrite length_firstn in E.
  destruct H as [H | [Hle Hbe]]; [unfold len in H; lia |].
  rewrite slice_to_nonneg by lia. change (Z.to_nat 4) with 4%nat.
  rewrite unpack_u32_head by (unfold len; rewrite length_firstn; lia).
  rewrite u32_head_firstn by (unfold len; lia).
  apply Z.eqb_neq in Hle, Hbe. rewrite Hle, Hbe. eauto.
Qed.

Lemma read_pcap_returns (file : bytes) :
  24 <= len file ->
  u32_head file = 0xa1b2c3d4 \/ u32_head file = 0xd4c3b2a1 ->
  exists w packets, read_pcap file = (w, Ok packets).
Proof.
  intros Hlen Hmagic. rewrite <- (firstn_skipn 24 file).
  assert (Hh : exists endian, pcap_header endian (firstn 24 file)).
  { destruct Hmagic as [Hm | Hm];
      [exists LittleEndian | exists BigEndian];
      (split; [rewrite length_firstn; unfold len in Hlen; lia |]);
      rewrite u32_head_firstn by lia; exact Hm. }
  destruct Hh as (endian & Hh).
  rewrite (read_pcap_header endian _ _ Hh).
  apply read_packets_total. rewrite length_app. lia.
Qed.

End AnalysisOutcome.

(** X17: the analysis fails only on the capture header.  On a file with
    fewer than 24 bytes or an unrecognised magic, [analyze_pcap] prints
    the line that names the file and raises the error of [read_pcap].  On
    every other file it raises nothing, whatever the frames hold: it
    prints that line, what [read_pcap] printed, the packet total, the
    announcement blocks, and ends with the six summary lines of the
    counters it returns. *)
Theorem analysis_fails_only_on_header (filepath : string) (file : bytes)
        (verbose dump_pids : bool) :
  (len file < 24
   \/ (u32_head file <> 0xa1b2c3d4 /\ u32_head file <> 0xd4c3b2a1) ->
   exists msg,
     analyze_pcap filepath file verbose dump_pids =
       ([String.append "Reading: " filepath], Raise (ValueError msg)))
  /\ (24 <= len file ->
      u32_head file = 0xa1b2c3d4 \/ u32_head file = 0xd4c3b2a1 ->
      exists w packets blocks c,
        read_pcap file = (w, Ok packets)
        /\ analyze_pcap filepath file verbose dump_pids =
             (String.append "Reading: " filepath
                :: w ++ total_line (List.length packets)
                :: blocks ++ summary_lines c,
              Ok c)).
Proof.
  split.
  - intros H. destruct (read_pcap_fatal file H) as (msg & Hr).
    exists msg. unfold analyze_pcap. rewrite Hr. reflexivity.
  - intros Hlen Hmagic.
    destruct (read_pcap_returns file Hlen Hmagic) as (w & packets & Hr).
    destruct (analyze_packets_counts (dump_pids || verbose) packets
                (mkCounters 0 0 0)) as (blocks & c & Hrun & _).
    exists w, packets, blocks, c. split; [exact Hr |].
    now apply (analyze_pcap_after_read (dump_pids || verbose)).
Qed.

Lemma analysis_fails_only_on_header_witness :
  exists msg,
    analyze_pcap "capture.pcap" [x01; x02] false false =
      ([String.append "Reading: " "capture.pcap"], Raise (ValueError msg)).
Proof.
  destruct (analysis_fails_only_on_header "capture.pcap" [x01; x02]
              false false) as [H _].
  apply H. left. vm_compute. reflexivity.
Defined.

(** X18: what the counters count.  When the analysis returns, its RTPS
    counter is the number of packets whose frame carries an RTPS message
    (an IPv4 Ethernet frame, a UDP datagram, a payload of at least 20
    bytes that starts with RTPS), its SPDP counter is the number of DATA
    submessages of those messages whose writer is classified SPDP, and its
    SEDP counter the number classified SEDP_PUB or SEDP_SUB; the two
    flags have no part in them. *)
Theorem counters_count_announcements (filepath : string) (file : bytes)
        (verbose dump_pids : bool) (out : list string) (c : Counters) :
  analyze_pcap filepath file verbose dump_pids = (out, Ok c) ->
  exists w packets,
    read_pcap file = (w, Ok packets)
    /\ rtps_count c = Z.of_nat (List.length (rtps_packets packets))
    /\ spdp_count c = count_role "SPDP" (announced_roles packets)
    /\ sedp_count c = count_role "SEDP_PUB" (announced_roles packets)
                       + count_role "SEDP_SUB" (announced_roles packets).
Proof.
  intros H.
  destruct (read_pcap file) as [w r] eqn:Hr.
  destruct r as [packets | e |];
    try (unfold analyze_pcap in H; rewrite Hr in H; discriminate H).
  destruct (analyze_packets_counts (dump_pids || verbose) packets
              (mkCounters 0 0 0)) as (blocks & c' & Hrun & _ & Hc1 & Hc2 & Hc3).
  rewrite (analyze_pcap_after_read (dump_pids || verbose) filepath file
             verbose dump_pids w packets eq_refl Hr blocks c' Hrun) in H.
  inversion H; subst c'. exists w, packets.
  cbn [rtps_count spdp_count sedp_count] in *.
  repeat split; lia.
Qed.

Lemma counters_count_announcements_witness :
  exists w packets,
    read_pcap sedp_capture = (w, Ok packets)
    /\ rtps_count (mkCounters 1 1 0)
       = Z.of_nat (List.length (rtps_packets packets))
    /\ spdp_count (mkCounters 1 1 0)
       = count_role "SPDP" (announced_roles packets)
    /\ sedp_count (mkCounters 1 1 0)
       = count_role "SEDP_PUB" (announced_roles packets)
         + count_role "SEDP_SUB" (announced_roles packets).
Proof.
  apply (counters_count_announcements "capture.pcap" sedp_capture true false
           (fst (analyze_pcap "capture.pcap" sedp_capture true false))).
  vm_compute. reflexivity.
Defined.

(** X19: frames that carry no RTPS message are passed over in silence.
    When no packet of a capture carries one, the analysis prints the line
    that names the file, what [read_pcap] printed, the packet total and a
    summary of zeros, and nothing else. *)
Theorem capture_without_rtps (filepath : string) (file : bytes)
        (verbose dump_pids : bool) (w : list string)
        (packets : list Packet) :
  read_pcap file = (w, Ok packets) ->
  Forall (fun pkt => decapsulate (pk_data pkt) = None) packets ->
  analyze_pcap filepath file verbose dump_pids =
    (String.append "Reading: " filepath
       :: w ++ total_line (List.length packets)
       :: summary_lines (mkCounters 0 0 0),
     Ok (mkCounters 0 0 0)).
Proof.
  intros Hr Hnone.
  destruct (analyze_packets_counts (dump_pids || verbose) packets
              (mkCounters 0 0 0)) as (blocks & c & Hrun & Hsilent & _).
  destruct (Hsilent Hnone) as [-> ->].
  now rewrite (analyze_pcap_after_read (dump_pids || verbose) filepath file
                 verbose dump_pids w packets eq_refl Hr [] _ Hrun).
Qed.

Lemma capture_without_rtps_witness :
  analyze_pcap "capture.pcap"
    (sample_header ++ records_bytes [sample_record]) false true =
    (String.append "Reading: " "capture.pcap"
       :: [] ++ total_line (List.length [sample_packet])
       :: summary_lines (mkCounters 0 0 0),
     Ok (mkCounters 0 0 0)).
Proof.
  apply (capture_without_rtps "capture.pcap"
           (sample_header ++ records_bytes [sample_record]) false true
           [] [sample_packet]).
  - vm_compute. reflexivity.
  - repeat constructor.
Defined.

(** The end-to-end scenario: one compliant publication announcement with
    sequence number 1. *)
Example analyze_sedp_capture :
  analyze_pcap "capture.pcap" sedp_capture false false =
    ([ "Reading: capture.pcap";
       total_line 1;
       RULE;
       "Packet #1 - SEDP_PUB Announcement";
       RULE;
       "Source: 10.0.0.1:7410 -> 239.255.0.1:7400";
       "Size: 162 bytes";
       "RTPS GUID Prefix: 0102030405060708090a0b0c";
       "Writer EntityID: 0x000003C2 (ENTITYID_SEDP_BUILTIN_PUBLICATIONS_WRITER)";
       "Reader EntityID: 0x00000000 (UNKNOWN)";
       "Sequence Number: 1";
       "";
       "Parameters: 5 PIDs found";
       "";
       "[OK] Packet validation PASSED";
       "";
       RULE;
       "Summary:";
       "  RTPS packets: 1";
       "  SPDP packets: 0";
       "  SEDP packets: 1";
       RULE ],
     Ok (mkCounters 1 1 0)).
Proof. vm_compute. reflexivity. Qed.
